(** * Team-4-APP: the report aggregation of the personal-finance tracker

    The server (the Express application that starts at
    [const express = require("express")] in [dashboard.js]) answers
    [GET /api/reports] with five SQL queries over the tables [income],
    [expense] and [budget]; the browser scripts ([income.js], [expense.js],
    [budget.js], [report.js]) format currency, aggregate rows by month and
    build per-category budget maps.

    Conventions of the embedding:
    - a DECIMAL amount is an integer number of the smallest currency unit
      ([Z]); the rounding of JavaScript doubles is not modelled;
    - a column value that is SQL [NULL] (JSON [null]) is [None];
    - a table is the list of its rows, in storage order;
    - a JavaScript object used as a dictionary is a [gmap string _]. *)

From Stdlib Require Import ZArith String Ascii Sorted Permutation.
From stdpp Require Import gmap strings list sorting pretty.

Local Open Scope Z_scope.

(** ** The fragment of SQL the handlers use *)

Module Sql.

(** [SUM(x)]: [NULL] values are skipped; the sum of no value is [NULL]. *)
Fixpoint sum (xs : list (option Z)) : option Z :=
  match xs with
  | [] => None
  | None :: xs' => sum xs'
  | Some x :: xs' =>
      match sum xs' with
      | None => Some x
      | Some s => Some (x + s)
      end
  end.

(** [IFNULL(v, d)]. *)
Definition ifnull {A} (v : option A) (d : A) : A :=
  match v with Some a => a | None => d end.

Section Relational.
Context {R K V : Type} `{EqDecision K}.

(** The distinct values of a list, each at its first occurrence. *)
Fixpoint distinct (ks : list K) : list K :=
  match ks with
  | [] => []
  | k :: ks' => k :: filter (λ k', k' ≠ k) (distinct ks')
  end.

(** [SELECT key, agg(rows of the group) FROM rows GROUP BY key]: one result
    row per distinct key ([NULL] keys form one group), the groups in the order
    in which their key is first met. *)
Definition group_by (key : R → K) (agg : list R → V) (rows : list R)
  : list (K * V) :=
  (λ k, (k, agg (filter (λ r, key r = k) rows))) <$> distinct (key <$> rows).

(** [ORDER BY]: a stable insertion sort; [le a b] says that [a] may stand
    before [b]. Rows that compare equal keep their relative order, that of
    the groups ("first encountered", spec 4.1 step 3). *)
Fixpoint insert_row (le : R → R → bool) (x : R) (l : list R) : list R :=
  match l with
  | [] => [x]
  | y :: l' => if le x y then x :: y :: l' else y :: insert_row le x l'
  end.

Fixpoint order_by (le : R → R → bool) (l : list R) : list R :=
  match l with
  | [] => []
  | x :: l' => insert_row le x (order_by le l')
  end.

End Relational.

(** Ascending order of a nullable column: [NULL] first. *)
Definition asc {A} (le : A → A → bool) (a b : option A) : bool :=
  match a, b with
  | None, _ => true
  | Some _, None => false
  | Some x, Some y => le x y
  end.

(** Descending order of a nullable column: [NULL] last. *)
Definition desc {A} (le : A → A → bool) (a b : option A) : bool :=
  asc le b a.

(** A [DATE] value. MySQL stores years up to 9999 and lets the month and the
    day be zero in incomplete dates. *)
Record date := { year : N; month : N; day : N }.

Definition digit (n : N) : ascii := ascii_of_N (48 + n).

(** The decimal digit of [n] at the place of [10^i]. *)
Definition digit_at (i n : N) : ascii :=
  digit (N.modulo (N.div n (10 ^ i)) 10).

Definition two_digits (n : N) : string :=
  String (digit_at 1 n) (String (digit_at 0 n) EmptyString).

Definition four_digits (n : N) : string :=
  String (digit_at 3 n) (String (digit_at 2 n) (two_digits n)).

(** The text ['%Y-%m-01'] of a year and a month: four digits, a dash, two
    digits and the constant day. *)
Definition first_of_month (ym : N * N) : string :=
  four_digits ym.1 +:+ "-" +:+ two_digits ym.2 +:+ "-01".

Definition year_month (d : date) : N * N := (year d, month d).

(** [DATE_FORMAT(d, '%Y-%m-01')]; [NULL] for a [NULL] date. *)
Definition DATE_FORMAT_Ym01 (d : option date) : option string :=
  first_of_month ∘ year_month <$> d.

End Sql.

(** Plain sum of a list of integers. *)
Definition Zsum (l : list Z) : Z := foldr Z.add 0 l.

(** JavaScript [Number(v)] of a nullable decimal: [Number(null)] is [0]. *)
Definition Number (v : option Z) : Z := Sql.ifnull v 0.

(** ** The transaction store *)

(** Modelled from the spec: the [CREATE TABLE] statements of [income],
    [expense] and [budget] are not among the sources. The rows have the
    columns that the handlers name and the spec lists in its data model; the
    owner of a row is always known, any other column may be [NULL]; texts are
    compared character by character, categories exactly as stored. *)
Record income_row := {
  inc_id : nat;
  inc_user_email : string;
  inc_source : option string;
  inc_amount : option Z;
  inc_cadence : option string;
  inc_date : option Sql.date
}.

Record expense_row := {
  exp_id : nat;
  exp_user_email : string;
  exp_category : option string;
  exp_description : option string;
  exp_amount : option Z;
  exp_date : option Sql.date;
  exp_cadence : option string
}.

Record budget_row := {
  bud_id : nat;
  bud_user_email : string;
  bud_category : option string;
  bud_amount : option Z;
  bud_cadence : option string
}.

Record database := {
  income : list income_row;
  expense : list expense_row;
  budget : list budget_row
}.

(** What a handler runs against: the tables, and whether the database server
    accepts connections. *)
Record server := {
  tables : database;
  reachable : bool
}.

(** ** Handlers: state passing with exceptions *)

Inductive outcome (A : Type) : Type :=
  | Returned (a : A)
  | Thrown.
Arguments Returned {A} a.
Arguments Thrown {A}.

Definition Js (A : Type) : Type := server → outcome A * server.

Global Instance Js_ret : MRet Js := λ A a s, (Returned a, s).

Global Instance Js_bind : MBind Js := λ A B k m s,
  match m s with
  | (Returned a, s') => k a s'
  | (Thrown, s') => (Thrown, s')
  end.

Global Instance Js_fmap : FMap Js := λ A B f m s,
  match m s with
  | (Returned a, s') => (Returned (f a), s')
  | (Thrown, s') => (Thrown, s')
  end.

Definition throw {A} : Js A := λ s, (Thrown, s).

(** [try { body } catch (e) { handler }]. *)
Definition try_catch {A} (body handler : Js A) : Js A := λ s,
  match body s with
  | (Returned a, s') => (Returned a, s')
  | (Thrown, s') => handler s'
  end.

(** [await createConnection()] rejects when the server is not reachable. *)
Definition createConnection : Js unit := λ s,
  if reachable s then (Returned tt, s) else (Thrown, s).

(** [await conn.execute(SELECT ...)]: the result set of a read-only query. *)
Definition execute_select {A} (q : database → list A) : Js (list A) := λ s,
  (Returned (q (tables s)), s).

(** [await conn.execute(INSERT ...)]: the statement changes the tables and
    reports its [insertId]. *)
Definition execute_insert (u : database → nat * database) : Js nat := λ s,
  let '(insertId, db) := u (tables s) in
  (Returned insertId, {| tables := db; reachable := reachable s |}).

(** [const [[row]] = ...]: the first row of the result set, [undefined] when
    there is none. *)
Definition first_row {A} (rows : list A) : option A := head rows.

(** [row.field] throws a [TypeError] on [undefined]. *)
Definition property {A B} (row : option A) (field : A → B) : Js B :=
  match row with
  | Some r => mret (field r)
  | None => throw
  end.

(** ** The report payload *)

Record totals_t := {
  totals_income : Z;
  totals_expenses : Z;
  totals_net : Z
}.

(** A row [{date, total}] of [monthlyIncome]. *)
Record month_total := {
  mt_date : option string;
  mt_total : option Z
}.

(** A row [{category, total}] of [expensesByCategory] and [budgets.byCategory]. *)
Record category_total := {
  ct_category : option string;
  ct_total : option Z
}.

Record budgets_t := {
  budgets_total : Z;
  budgets_byCategory : list category_total
}.

Record report := {
  totals : totals_t;
  monthlyIncome : list month_total;
  expensesByCategory : list category_total;
  budgets : budgets_t
}.

Inductive response : Type :=
  | json_report (status : nat) (body : report)
  | json_message (status : nat) (message : string).

(** ** [GET /api/reports] *)

(** [FROM income WHERE user_email=?], and the same for the other tables. *)
Definition income_of (email : string) (db : database) : list income_row :=
  filter (λ r, inc_user_email r = email) (income db).

Definition expense_of (email : string) (db : database) : list expense_row :=
  filter (λ r, exp_user_email r = email) (expense db).

Definition budget_of (email : string) (db : database) : list budget_row :=
  filter (λ r, bud_user_email r = email) (budget db).

(** [SELECT IFNULL(SUM(amount),0) AS income FROM income WHERE user_email=?]:
    an aggregate without [GROUP BY] yields exactly one row; a row of one
    column is written as the value of the column. *)
Definition select_income_total (email : string) (db : database) : list Z :=
  [Sql.ifnull (Sql.sum (inc_amount <$> income_of email db)) 0].

(** [SELECT IFNULL(SUM(amount),0) AS expenses FROM expense WHERE user_email=?] *)
Definition select_expense_total (email : string) (db : database) : list Z :=
  [Sql.ifnull (Sql.sum (exp_amount <$> expense_of email db)) 0].

(** The grouping key [DATE_FORMAT(date, '%Y-%m-01')] of an income row. *)
Definition month_key (r : income_row) : option string :=
  Sql.DATE_FORMAT_Ym01 (inc_date r).

(** [SELECT DATE_FORMAT(date, '%Y-%m-01') AS date, SUM(amount) AS total
     FROM income WHERE user_email=?
     GROUP BY DATE_FORMAT(date, '%Y-%m-01') ORDER BY date]: in [ORDER BY],
    [date] is the alias of the select list, the formatted text. *)
Definition select_monthly_income (email : string) (db : database)
  : list month_total :=
  Sql.order_by (λ a b, Sql.asc String.leb (mt_date a) (mt_date b))
    ((λ g, {| mt_date := g.1; mt_total := g.2 |}) <$>
     Sql.group_by month_key (λ rs, Sql.sum (inc_amount <$> rs))
       (income_of email db)).

(** [SELECT category, SUM(amount) AS total FROM expense WHERE user_email=?
     GROUP BY category ORDER BY total DESC] *)
Definition select_expenses_by_category (email : string) (db : database)
  : list category_total :=
  Sql.order_by (λ a b, Sql.desc Z.leb (ct_total a) (ct_total b))
    ((λ g, {| ct_category := g.1; ct_total := g.2 |}) <$>
     Sql.group_by exp_category (λ rs, Sql.sum (exp_amount <$> rs))
       (expense_of email db)).

(** [SELECT category, SUM(amount) AS total FROM budget WHERE user_email=?
     GROUP BY category] *)
Definition select_budgets_by_category (email : string) (db : database)
  : list category_total :=
  (λ g, {| ct_category := g.1; ct_total := g.2 |}) <$>
  Sql.group_by bud_category (λ rs, Sql.sum (bud_amount <$> rs))
    (budget_of email db).

(** The handler of [app.get("/api/reports", ...)], after [authenticateToken]
    has put the user's email in [req.user.email]. *)
Definition api_reports (email : string) : Js response :=
  try_catch
    (createConnection;;
     inc ← first_row <$> execute_select (select_income_total email);
     exp ← first_row <$> execute_select (select_expense_total email);
     monthlyInc ← execute_select (select_monthly_income email);
     cats ← execute_select (select_expenses_by_category email);
     bud ← execute_select (select_budgets_by_category email);
     income ← property inc id;
     expenses ← property exp id;
     mret (json_report 200 {|
       totals := {|
         totals_income := income;
         totals_expenses := expenses;
         totals_net := income - expenses
       |};
       monthlyIncome := monthlyInc;
       expensesByCategory := cats;
       budgets := {|
         budgets_total := foldl (λ s r, s + Number (ct_total r)) 0 bud;
         budgets_byCategory := bud
       |}
     |}))
    (mret (json_message 500 "Error building report.")).

(** ** [POST /api/budgets] *)

(** The JSON body [{category, amount, cadence}] of the request. *)
Record budget_body := {
  body_category : option string;
  body_amount : option Z;
  body_cadence : option string
}.

(** White space, among the characters of one byte. *)
Definition is_space (c : ascii) : bool :=
  bool_decide (c ∈ [" "; "009"; "010"; "011"; "012"; "013"]%char).

Fixpoint trim_start (s : string) : string :=
  match s with
  | String c s' => if is_space c then trim_start s' else s
  | EmptyString => EmptyString
  end.

(** [s.trim()] *)
Definition trim (s : string) : string :=
  String.rev (trim_start (String.rev (trim_start s))).

(** The next [AUTO_INCREMENT] value of [budget.id]. *)
Definition next_budget_id (db : database) : nat :=
  S (foldr Nat.max 0%nat (bud_id <$> budget db)).

(** [INSERT INTO budget (user_email, category, amount, cadence)
     VALUES (?, ?, ?, ?)]: a new row, whatever the table holds already. *)
Definition insert_budget (email category : string) (amount : Z)
    (cadence : string) (db : database) : nat * database :=
  (next_budget_id db,
   {| income := income db;
      expense := expense db;
      budget := budget db ++ [{| bud_id := next_budget_id db;
                                bud_user_email := email;
                                bud_category := Some category;
                                bud_amount := Some amount;
                                bud_cadence := Some cadence |}] |}).

Inductive post_response : Type :=
  | json_id (status : nat) (id : nat)
  | json_error (status : nat) (message : string).

(** The handler of [app.post("/api/budgets", ...)]. The second statement,
    [INSERT IGNORE INTO user_categories], writes a table that no query of the
    report reads; it is left out of [database]. *)
Definition api_budgets_post (email : string) (body : budget_body)
  : Js post_response :=
  match body_category body, body_amount body with
  | Some category, Some amount =>
      if bool_decide (category = "") || bool_decide (amount = 0)
      then mret (json_error 400 "Missing fields.")
      else
        try_catch
          (createConnection;;
           insertId ← execute_insert
             (insert_budget email (trim category) amount
                (default "monthly" (body_cadence body)));
           mret (json_id 201 insertId))
          (mret (json_error 500 "Error creating budget."))
  | _, _ => mret (json_error 400 "Missing fields.")
  end.

(** ** [GET /api/budgets] *)

(** A row [{id, category, amount, ...}] of the JSON answer. A DECIMAL column
    arrives as a non-empty text, which is truthy even when it reads zero. *)
Record budget_item := {
  item_id : nat;
  item_category : option string;
  item_amount : option Z;
  item_total : option Z
}.

(** [SELECT id, category, amount, cadence, created_at FROM budget
     WHERE user_email=? ORDER BY category]; the rows have no [total]. *)
Definition select_budgets (email : string) (db : database) : list budget_item :=
  Sql.order_by (λ a b, Sql.asc String.leb (item_category a) (item_category b))
    ((λ r, {| item_id := bud_id r; item_category := bud_category r;
              item_amount := bud_amount r; item_total := None |}) <$>
     budget_of email db).

(** ** JavaScript numbers, as far as currency parsing needs them *)

(** A finite number is [mantissa / 10^scale]; rounding to the nearest double
    is not modelled, overflow to [Infinity] is. *)
Inductive js_number : Type :=
  | NaN
  | Infinity (negative : bool)
  | Finite (mantissa : Z) (scale : nat).

(** Magnitudes from [2^1024 - 2^970] on round to [Infinity]. *)
Definition overflow_threshold : Z := 2 ^ 1024 - 2 ^ 970.

Definition to_double (mantissa : Z) (scale : nat) : js_number :=
  if overflow_threshold * 10 ^ Z.of_nat scale <=? Z.abs mantissa
  then Infinity (mantissa <? 0)
  else Finite mantissa scale.

Definition isFinite (n : js_number) : bool :=
  match n with Finite _ _ => true | _ => false end.

(** [n] is falsy: [NaN] or zero. *)
Definition falsy (n : js_number) : bool :=
  match n with
  | NaN => true
  | Finite m _ => bool_decide (m = 0)
  | Infinity _ => false
  end.

Definition is_digit (c : ascii) : bool :=
  (("0" <=? c) && (c <=? "9"))%char.

Definition digit_value (c : ascii) : Z :=
  Z.of_N (N_of_ascii c) - 48.

(** The longest prefix of decimal digits: its value as a number, its length
    and the rest of the text. *)
Fixpoint span_digits (acc : Z) (len : nat) (s : string) : Z * nat * string :=
  match s with
  | String c s' =>
      if is_digit c then span_digits (10 * acc + digit_value c) (S len) s'
      else (acc, len, s)
  | EmptyString => (acc, len, s)
  end.

(** [StrUnsignedDecimalLiteral] without exponent: [digits], [digits.],
    [digits.digits] or [.digits]; the result is (mantissa, scale). *)
Definition unsigned_literal (s : string) : option (Z * nat) :=
  let '(int, int_len, rest) := span_digits 0 0 s in
  match rest with
  | EmptyString => if int_len is O then None else Some (int, O)
  | String "." rest' =>
      let '(all, len, rest'') := span_digits int int_len rest' in
      match rest'' with
      | EmptyString => if len is O then None else Some (all, (len - int_len)%nat)
      | _ => None
      end
  | _ => None
  end.

(** [Number(s)] for a text [s] made of digits, ['.'] and ['-'] only: the
    empty text is [0], a decimal literal with an optional leading minus is its
    value, anything else is [NaN]. *)
Definition Number_of_string (s : string) : js_number :=
  match s with
  | EmptyString => Finite 0 0
  | String "-" s' =>
      match unsigned_literal s' with
      | Some (m, k) => to_double (- m) k
      | None => NaN
      end
  | _ =>
      match unsigned_literal s with
      | Some (m, k) => to_double m k
      | None => NaN
      end
  end.

(** What the currency helpers are called with: the [value] of an input
    element, or [undefined]/[null] when the element is missing. *)
Inductive js_value : Type :=
  | js_undefined
  | js_null
  | js_string (s : string).

(** [String(s || '')] *)
Definition or_empty (s : js_value) : string :=
  match s with
  | js_string t => t
  | _ => EmptyString
  end.

(** The character class [[0-9.-]]. *)
Definition amount_char (c : ascii) : bool :=
  is_digit c || bool_decide (c = "."%char) || bool_decide (c = "-"%char).

(** [t.replace(/[^0-9.-]+/g, '')] *)
Fixpoint strip (t : string) : string :=
  match t with
  | String c t' => if amount_char c then String c (strip t') else strip t'
  | EmptyString => EmptyString
  end.

(** ** The browser scripts *)

(** A text key of a JavaScript object: [obj[null]] is [obj["null"]]. *)
Definition property_key (k : option string) : string := default "null" k.

(** [a || b] on nullable decimals. *)
Definition or_else (a b : option Z) : option Z :=
  match a with Some _ => a | None => b end.



(** *** [income.js] *)
Module IncomeJs.

(** [const n = Number(String(s || '').replace(/[^0-9.-]+/g, ''));
     return Number.isFinite(n) ? n : 0;] *)
Definition unformatCurrency (s : js_value) : js_number :=
  let n := Number_of_string (strip (or_empty s)) in
  if isFinite n then n else Finite 0 0.

(** [String(n).padStart(2, '0')] *)
Definition pad2 (n : Z) : string :=
  let t := pretty n in
  match String.length t with
  | 0%nat => "00"
  | 1%nat => "0" +:+ t
  | _ => t
  end.

(** A valid [Date], through the three methods the script calls. *)
Record Date := {
  getTime : Z;
  getFullYear : Z;
  getMonth : Z
}.

(** A row of the JSON list of [GET /api/income]. *)
Record income_item := {
  date : option string;
  amount : option Z
}.

(** The module variable [incomeRange]: ['ALL'] or a number of months. *)
Inductive range : Type :=
  | ALL
  | months (n : Z).

Section aggregate.

(** [new Date(v)]; [None] is an Invalid Date, for which [isNaN] holds. *)
Variable new_Date : option string → option Date.

(** [new Date(`${ym}-01`) >= cutoff], for the [cutoff] that
    [cutoff.setMonth(cutoff.getMonth() - (n - 1))] makes of [maxDate]. *)
Variable from_cutoff : Z → Date → string → bool.

(** The state of the [forEach] loop: [map] and [maxDate]. *)
Definition loop_state : Type := gmap string Z * option Date.

(** One turn of [rows.forEach(r => { ... })]. *)
Definition aggregate_row (st : loop_state) (r : income_item) : loop_state :=
  match new_Date (date r) with
  | None => st
  | Some d =>
      let ym := pretty (getFullYear d) +:+ "-" +:+ pad2 (getMonth d + 1) in
      (<[ym := default 0 (st.1 !! ym) + Number (amount r)]> st.1,
       match st.2 with
       | None => Some d
       | Some maxDate =>
           if getTime maxDate <? getTime d then Some d else Some maxDate
       end)
  end.

(** [Object.keys(map).sort()]: the keys in the order of their characters.
    The keys are distinct, so the sorted list does not depend on the order in
    which they are listed first. *)
Definition sorted_keys (map : gmap string Z) : list string :=
  Sql.order_by String.leb (elements (dom map)).

Definition aggregateByMonth (incomeRange : range) (rows : list income_item)
  : list string * list Z :=
  let '(map, maxDate) := foldl aggregate_row (∅, None) rows in
  let labels := sorted_keys map in
  let labels :=
    match incomeRange, maxDate with
    | months n, Some maxDate => filter (λ ym, from_cutoff n maxDate ym) labels
    | _, _ => labels
    end in
  (labels, (λ ym, default 0 (map !! ym)) <$> labels).

End aggregate.

End IncomeJs.

(** *** [expense.js] *)
Module ExpenseJs.

(** The same text as in [income.js]. *)
Definition unformatCurrency (s : js_value) : js_number :=
  let n := Number_of_string (strip (or_empty s)) in
  if isFinite n then n else Finite 0 0.

(** [aggregateByMonth] of [expense.js] has the text of the one of [income.js],
    with the module variable [expenseRange] for [incomeRange]; of a row of
    [GET /api/expense] it reads [date] and [amount] only. *)
Definition aggregateByMonth := IncomeJs.aggregateByMonth.

End ExpenseJs.

(** *** [budget.js] *)
Module BudgetJs.

(** [Number(String(s || "").replace(/[^0-9.-]+/g, "")) || 0] *)
Definition unformatCurrency (s : js_value) : js_number :=
  let n := Number_of_string (strip (or_empty s)) in
  if falsy n then Finite 0 0 else n.

(** [budgets = {};
     budRows.forEach((b) => (budgets[b.category] = Number(b.amount || 0)));]
    in [loadEverything]. *)
Definition loadEverything_budgets (budRows : list budget_item) : gmap string Z :=
  foldl (λ budgets b,
           <[property_key (item_category b) := Number (item_amount b)]> budgets)
        ∅ budRows.

End BudgetJs.

(** *** [report.js] *)
Module ReportJs.

(** [const budgetsObj = {};
     budgetsArray.forEach((b) => {
       budgetsObj[b.category] = Number(b.amount || b.total || 0); });]
    in [loadReport]. *)
Definition loadReport_budgetsObj (budgetsArray : list budget_item)
  : gmap string Z :=
  foldl (λ budgetsObj b,
           <[property_key (item_category b) :=
               Number (or_else (item_amount b) (item_total b))]> budgetsObj)
        ∅ budgetsArray.


End ReportJs.

(** The server with the tables [db], accepting connections. *)
Definition online (db : database) : server :=
  {| tables := db; reachable := true |}.

(** A date of the calendar: a year of at most four digits and a month from
    January to December. *)
Definition in_calendar (d : Sql.date) : Prop :=
  (Sql.year d ≤ 9999 ∧ 1 ≤ Sql.month d ≤ 12)%N.

(** Chronological order of (year, month) pairs. *)
Definition month_before (a b : N * N) : Prop :=
  (a.1 < b.1 ∨ (a.1 = b.1 ∧ a.2 < b.2))%N.

(** ** [GET /api/budgets], the handler *)



(** ** [GET /api/income] and [GET /api/expense] *)

(** The order of [DATE] values: by year, then month, then day. *)
Definition date_leb (a b : Sql.date) : bool :=
  if (Sql.year a =? Sql.year b)%N
  then if (Sql.month a =? Sql.month b)%N
       then (Sql.day a <=? Sql.day b)%N
       else (Sql.month a <? Sql.month b)%N
  else (Sql.year a <? Sql.year b)%N.

(** [SELECT * FROM income WHERE user_email=? ORDER BY date DESC] *)
Definition select_income (email : string) (db : database) : list income_row :=
  Sql.order_by (λ a b, Sql.desc date_leb (inc_date a) (inc_date b))
    (income_of email db).

(** [SELECT * FROM expense WHERE user_email=? ORDER BY date DESC] *)
Definition select_expense (email : string) (db : database)
  : list expense_row :=
  Sql.order_by (λ a b, Sql.desc date_leb (exp_date a) (exp_date b))
    (expense_of email db).

Inductive rows_response (A : Type) : Type :=
  | json_rows (status : nat) (items : list A)
  | json_rows_failure (status : nat) (message : string).
Arguments json_rows {A} status items.
Arguments json_rows_failure {A} status message.

(** The handler of [app.get("/api/income", ...)]. *)
Definition api_income_get (email : string) : Js (rows_response income_row) :=
  try_catch
    (createConnection;;
     rows ← execute_select (select_income email);
     mret (json_rows 200 rows))
    (mret (json_rows_failure 500 "Error retrieving income.")).

(** The handler of [app.get("/api/expense", ...)]. *)
Definition api_expense_get (email : string)
  : Js (rows_response expense_row) :=
  try_catch
    (createConnection;;
     rows ← execute_select (select_expense email);
     mret (json_rows 200 rows))
    (mret (json_rows_failure 500 "Error retrieving expenses.")).

(** ** The bearer token: [auth] in the browser, [authenticateToken] on the
    server *)

Module Auth.

(** [localStorage.getItem("token") || localStorage.getItem("jwtToken") || ""]:
    the first of the two stored texts that is neither [null] nor empty. *)
Definition getToken (token jwtToken : option string) : string :=
  match token with
  | Some t => if bool_decide (t = "") then default "" jwtToken else t
  | None => default "" jwtToken
  end.

(** [getToken() ? { Authorization: "Bearer " + getToken() } : {}]: the
    [Authorization] header of a request, if any. *)
Definition auth (token jwtToken : option string) : option string :=
  let t := getToken token jwtToken in
  if bool_decide (t = "") then None else Some ("Bearer " +:+ t).

(** [s.split(sep)] for a separator of one character. *)
Fixpoint split (sep : ascii) (s : string) : list string :=
  match s with
  | EmptyString => [EmptyString]
  | String c s' =>
      if bool_decide (c = sep) then EmptyString :: split sep s'
      else
        match split sep s' with
        | part :: parts => String c part :: parts
        | [] => [String c EmptyString]
        end
  end.

(** [const hdr = req.headers.authorization || "";
     const parts = hdr.split(" ");
     const token = parts.length === 2 && parts[0] === "Bearer" ? parts[1] : null;] *)
Definition header_token (authorization : option string) : option string :=
  match split " " (default "" authorization) with
  | [scheme; token] => if bool_decide (scheme = "Bearer") then Some token else None
  | _ => None
  end.


Section middleware.

(** [jwt.verify(token, process.env.JWT_SECRET, ...)]: the [email] of the
    decoded payload, [None] when the callback gets an error. *)
Variable jwt_verify : string → option string.

(** The emails of the table [user], which no handler modelled here writes. *)
Variable users : list string.


End middleware.

End Auth.

(** *** [dashboard.js], the page script *)
Module DashboardJs.

(** [budgets.find((b) => b.category === cat)?.total || 0], as the height of
    a bar. *)
Definition find_total (rows : list category_total) (cat : option string) : Z :=
  match List.find (λ r, bool_decide (ct_category r = cat)) rows with
  | Some r => Number (ct_total r)
  | None => 0
  end.

(** The labels and the two series of [setupBudgetVsActualChart]:
    [categories] is [Array.from(new Set([...budgets.map((b) => b.category),
    ...expenses.map((e) => e.category)]))], a set that keeps each value at the
    place where it is first added. *)
Definition setupBudgetVsActualChart (budgets expenses : list category_total)
  : list (option string) * list Z * list Z :=
  let categories :=
    Sql.distinct ((ct_category <$> budgets) ++ (ct_category <$> expenses)) in
  let budgetVals := find_total budgets <$> categories in
  let actualVals := find_total expenses <$> categories in
  (categories, budgetVals, actualVals).


End DashboardJs.

(** ** Sample data *)

Definition income_sample (id : nat) (email : string) (amount : Z)
    (date : option Sql.date) : income_row :=
  {| inc_id := id; inc_user_email := email; inc_source := Some "Salary";
     inc_amount := Some amount; inc_cadence := Some "monthly";
     inc_date := date |}.

Definition expense_sample (id : nat) (email category : string) (amount : Z)
  : expense_row :=
  {| exp_id := id; exp_user_email := email; exp_category := Some category;
     exp_description := None; exp_amount := Some amount;
     exp_date := Some {| Sql.year := 2024; Sql.month := 3; Sql.day := 9 |};
     exp_cadence := Some "monthly" |}.

Definition budget_sample (id : nat) (email category : string) (amount : Z)
  : budget_row :=
  {| bud_id := id; bud_user_email := email; bud_category := Some category;
     bud_amount := Some amount; bud_cadence := Some "monthly" |}.

Definition on_day (y m d : N) : option Sql.date :=
  Some {| Sql.year := y; Sql.month := m; Sql.day := d |}.

(** Two incomes of January 2024 and one of December 2023 for ["ann"], one
    income of another user. *)
Definition db_months : database := {|
  income := [income_sample 1 "ann" 100 (on_day 2024 1 5);
             income_sample 2 "bob" 999 (on_day 2024 1 9);
             income_sample 3 "ann" 50 (on_day 2024 1 28);
             income_sample 4 "ann" 70 (on_day 2023 12 31)];
  expense := [];
  budget := []
|}.

(** Expenses [{Rent,100}, {Rent,50}, {Food,30}] and two budget rows
    [{Rent,500}]. *)
Definition db_categories : database := {|
  income := [];
  expense := [expense_sample 1 "ann" "Rent" 100;
              expense_sample 2 "ann" "Rent" 50;
              expense_sample 3 "ann" "Food" 30];
  budget := [budget_sample 1 "ann" "Rent" 500;
             budget_sample 2 "ann" "Rent" 500]
|}.



Definition db_empty : database :=
  {| income := []; expense := []; budget := [] |}.

(** The digit [1] followed by 309 zeros: the decimal text of [10^309]. *)
Definition text_1e309 : string :=
  String "1" (string_of_list_ascii (replicate 309 "0"%char)).

(** A [Date] parser for the samples: one known text, anything else is an
    Invalid Date. *)
Definition new_Date_sample (v : option string) : option IncomeJs.Date :=
  match v with
  | Some "2024-01-05" =>
      Some {| IncomeJs.getTime := 1704412800000;
              IncomeJs.getFullYear := 2024;
              IncomeJs.getMonth := 0 |}
  | _ => None
  end.

(** A budget of 250 for [Rent], the category typed with a blank at each
    end, without cadence. *)
Definition body_sample : budget_body :=
  {| body_category := Some " Rent "; body_amount := Some 250;
     body_cadence := None |}.


(** * Properties *)

(** ** Facts about the SQL fragment *)

Module SqlFacts.
Import Sql.

Lemma Zsum_cons (z : Z) (l : list Z) : Zsum (z :: l) = z + Zsum l.
Proof. reflexivity. Qed.

Lemma Zsum_app (l k : list Z) : Zsum (l ++ k) = Zsum l + Zsum k.
Proof.
  induction l as [|z l IH]; [done|].
  rewrite <-app_comm_cons, !Zsum_cons, IH. lia.
Qed.

Lemma Zsum_perm (l k : list Z) : l ≡ₚ k → Zsum l = Zsum k.
Proof. induction 1; rewrite ?Zsum_cons; lia. Qed.

Lemma Zsum_fmap_add {A} (f g : A → Z) (l : list A) :
  Zsum ((λ a, f a + g a) <$> l) = Zsum (f <$> l) + Zsum (g <$> l).
Proof.
  induction l as [|a l IH]; [done|]. rewrite !fmap_cons, !Zsum_cons, IH. lia.
Qed.

Lemma Zsum_fmap_zero {A} (l : list A) : Zsum ((λ _, 0) <$> l) = 0.
Proof.
  induction l as [|a l IH]; [done|]. by rewrite fmap_cons, Zsum_cons, IH.
Qed.


Lemma Number_sum (xs : list (option Z)) :
  Number (sum xs) = Zsum (Number <$> xs).
Proof.
  induction xs as [|[x|] xs IH]; [done|..];
    rewrite fmap_cons, Zsum_cons, <-IH; cbn [sum];
    destruct (sum xs); unfold Number, ifnull; lia.
Qed.

Lemma sum_Some (zs : list Z) :
  zs ≠ [] → sum (Some <$> zs) = Some (Zsum zs).
Proof.
  induction zs as [|z zs IH]; [done|]. intros _.
  destruct zs as [|z' zs]; [simpl; f_equal; lia|].
  change (sum (Some <$> z :: z' :: zs))
    with (match sum (Some <$> z' :: zs) with
          | None => Some z
          | Some s => Some (z + s)
          end).
  by rewrite IH.
Qed.

Lemma sum_None (xs : list (option Z)) :
  sum xs = None ↔ Forall (λ x, x = None) xs.
Proof.
  induction xs as [|[x|] xs IH]; simpl.
  - split; [constructor|done].
  - destruct (sum xs); split; try done; inversion 1; done.
  - rewrite IH. split; [by constructor|by inversion 1].
Qed.

Lemma sum_skips_null (xs ys : list (option Z)) :
  sum (xs ++ None :: ys) = sum (xs ++ ys).
Proof.
  induction xs as [|[x|] xs IH]; simpl; [done| |done]. by rewrite IH.
Qed.

Section relational.
Context {R K V : Type} `{EqDecision K}.
Implicit Types (ks : list K) (rows : list R) (le : R → R → bool).

Lemma elem_of_distinct ks k : k ∈ distinct ks ↔ k ∈ ks.
Proof.
  induction ks as [|k' ks IH]; simpl; [done|].
  rewrite !elem_of_cons, list_elem_of_filter, IH.
  destruct (decide (k = k')); tauto.
Qed.

Lemma NoDup_distinct ks : NoDup (distinct ks).
Proof.
  induction ks as [|k ks IH]; simpl; constructor.
  - rewrite list_elem_of_filter. intros [Hk _]. by apply Hk.
  - by apply NoDup_filter.
Qed.

Lemma distinct_nil_inv ks : distinct ks = [] → ks = [].
Proof. by destruct ks. Qed.

Lemma group_by_keys (key : R → K) (agg : list R → V) rows :
  (group_by key agg rows).*1 = distinct (key <$> rows).
Proof.
  unfold group_by. generalize (distinct (key <$> rows)) as ks.
  induction ks as [|k ks IH]; [done|]. cbn [fmap list_fmap] in *.
  by rewrite IH.
Qed.

Lemma elem_of_group_by (key : R → K) (agg : list R → V) rows g :
  g ∈ group_by key agg rows ↔
  (∃ r, r ∈ rows ∧ key r = g.1) ∧ g.2 = agg (filter (λ r, key r = g.1) rows).
Proof.
  unfold group_by. rewrite list_elem_of_fmap. split.
  - intros (k & -> & Hk). simpl. split; [|done].
    apply elem_of_distinct, list_elem_of_fmap in Hk as (r & -> & Hr). eauto.
  - intros [(r & Hr & Hkey) Hagg]. exists g.1. split.
    + destruct g; simpl in *; congruence.
    + apply elem_of_distinct, list_elem_of_fmap. eauto.
Qed.

Lemma insert_row_perm le x l : insert_row le x l ≡ₚ x :: l.
Proof.
  induction l as [|y l IH]; simpl; [done|].
  destruct (le x y); [done|]. rewrite IH. apply Permutation_swap.
Qed.

Lemma order_by_perm le l : order_by le l ≡ₚ l.
Proof.
  induction l as [|x l IH]; simpl; [done|].
  by rewrite insert_row_perm, IH.
Qed.

Lemma elem_of_order_by le l x : x ∈ order_by le l ↔ x ∈ l.
Proof. by rewrite order_by_perm. Qed.

Lemma order_by_fmap {B} (f : R → B) le l :
  f <$> order_by le l ≡ₚ f <$> l.
Proof. by rewrite order_by_perm. Qed.

Section sorted.
Context (le : R → R → bool).
Hypothesis le_total : ∀ a b, le a b = true ∨ le b a = true.
Hypothesis le_trans : ∀ a b c, le a b = true → le b c = true → le a c = true.

Lemma insert_row_sorted x l :
  StronglySorted (λ a b, le a b = true) l →
  StronglySorted (λ a b, le a b = true) (insert_row le x l).
Proof.
  induction 1 as [|y l Hl IH Hy]; simpl; [repeat constructor|].
  destruct (le x y) eqn:Hxy.
  - constructor; [by constructor|]. constructor; [done|].
    eapply Forall_impl; [exact Hy|]. intros z Hz. simpl in Hz. eauto.
  - constructor; [done|].
    assert (le y x = true) by (destruct (le_total x y); congruence).
    eapply Permutation_Forall; [symmetry; apply insert_row_perm|].
    by constructor.
Qed.

Lemma order_by_sorted l : StronglySorted (λ a b, le a b = true) (order_by le l).
Proof.
  induction l; simpl; [constructor|]. by apply insert_row_sorted.
Qed.

End sorted.
End relational.

Lemma asc_total {A} (le : A → A → bool) :
  (∀ a b, le a b = true ∨ le b a = true) →
  ∀ a b, asc le a b = true ∨ asc le b a = true.
Proof. intros H [a|] [b|]; simpl; auto. Qed.

Lemma asc_trans {A} (le : A → A → bool) :
  (∀ a b c, le a b = true → le b c = true → le a c = true) →
  ∀ a b c, asc le a b = true → asc le b c = true → asc le a c = true.
Proof. intros H [a|] [b|] [c|]; simpl; eauto; done. Qed.

Lemma Zleb_total (a b : Z) : (a <=? b) = true ∨ (b <=? a) = true.
Proof. lia. Qed.

Lemma Zleb_trans (a b c : Z) :
  (a <=? b) = true → (b <=? c) = true → (a <=? c) = true.
Proof. lia. Qed.

Lemma filter_all {A} (P : A → Prop) `{∀ x, Decision (P x)} (l : list A) :
  Forall P l → filter P l = l.
Proof.
  induction 1 as [|x l Hx Hl IH]; [done|].
  by rewrite filter_cons_True, IH.
Qed.

Section partition.
Context {R K : Type} `{EqDecision K}.
Variables (key : R → K) (h : R → Z).

Lemma Zsum_indicator (ks : list K) (k : K) (z : Z) :
  NoDup ks →
  Zsum ((λ k', if decide (k = k') then z else 0) <$> ks)
  = if decide (k ∈ ks) then z else 0.
Proof.
  induction 1 as [|k' ks Hk' Hks IH]; [done|].
  rewrite fmap_cons, Zsum_cons, IH.
  destruct (decide (k = k')) as [->|Hne].
  - rewrite (decide_False (P := k' ∈ ks)) by done.
    rewrite (decide_True (P := k' ∈ k' :: ks)) by left. lia.
  - destruct (decide (k ∈ ks)) as [Hin|Hin].
    + rewrite (decide_True (P := k ∈ k' :: ks)) by (by right). lia.
    + rewrite (decide_False (P := k ∈ k' :: ks)); [lia|].
      rewrite elem_of_cons. tauto.
Qed.

Lemma Zsum_by_key (ks : list K) (rows : list R) :
  NoDup ks →
  Zsum ((λ k, Zsum (h <$> filter (λ r, key r = k) rows)) <$> ks)
  = Zsum (h <$> filter (λ r, key r ∈ ks) rows).
Proof.
  intros Hks. induction rows as [|r rows IH]; [apply Zsum_fmap_zero|].
  transitivity
    (Zsum ((λ k, (if decide (key r = k) then h r else 0)
                 + Zsum (h <$> filter (λ r, key r = k) rows)) <$> ks)).
  { f_equal. apply list_fmap_ext. intros _ k _.
    rewrite filter_cons. by destruct (decide (key r = k)). }
  rewrite Zsum_fmap_add, IH, Zsum_indicator by done.
  rewrite filter_cons. by destruct (decide (key r ∈ ks)).
Qed.

(** The sums of the groups add up to the sum over all rows. *)
Lemma Zsum_groups (rows : list R) :
  Zsum ((λ k, Zsum (h <$> filter (λ r, key r = k) rows))
          <$> distinct (key <$> rows))
  = Zsum (h <$> rows).
Proof.
  rewrite Zsum_by_key by apply NoDup_distinct. f_equal. f_equal.
  apply filter_all, Forall_forall. intros r Hr.
  apply elem_of_distinct, list_elem_of_fmap. eauto.
Qed.

End partition.

Lemma group_by_sum_total {R K} `{EqDecision K} (key : R → K)
    (f : R → option Z) (rows : list R) :
  Zsum ((λ g, Number g.2) <$> group_by key (λ rs, sum (f <$> rs)) rows)
  = Zsum (Number ∘ f <$> rows).
Proof.
  unfold group_by. rewrite <-list_fmap_compose.
  rewrite <-(Zsum_groups key (Number ∘ f) rows). f_equal.
  apply list_fmap_ext. intros _ k _. simpl.
  by rewrite Number_sum, <-list_fmap_compose.
Qed.

Lemma StronglySorted_weaken {A} (R1 R2 : A → A → Prop) (l : list A) :
  (∀ a b, R1 a b → R2 a b) → StronglySorted R1 l → StronglySorted R2 l.
Proof.
  intros HR. induction 1 as [|a l Hl IH Ha]; constructor; [done|].
  eapply Forall_impl; [exact Ha|]. auto.
Qed.

(** Descending order of nullable totals, spelled out. *)
Lemma desc_Zleb (a b : option Z) :
  desc Z.leb a b = true ↔ ∀ y, b = Some y → ∃ x, a = Some x ∧ y ≤ x.
Proof.
  destruct a as [x|], b as [y|]; simpl; split; try done.
  - intros H ? [= <-]. exists x. split; [done|lia].
  - intros H. destruct (H y eq_refl) as (? & [= <-] & ?). lia.
  - intros H. by destruct (H y eq_refl) as (? & ? & ?).
Qed.

Lemma StronglySorted_strict {A B} (R : A → A → Prop) (f : A → B) (l : list A) :
  StronglySorted R l → NoDup (f <$> l) →
  StronglySorted (λ a b, R a b ∧ f a ≠ f b) l.
Proof.
  induction 1 as [|a l Hl IH Ha]; [constructor|].
  rewrite fmap_cons, NoDup_cons. intros [Hfa Hnd].
  constructor; [by apply IH|].
  apply Forall_forall. intros b Hb. split.
  - by eapply Forall_forall in Ha.
  - intros Heq. apply Hfa. rewrite Heq. by apply list_elem_of_fmap_2.
Qed.

Lemma StronglySorted_Forall2 {A B} (R : A → A → Prop) (R' : B → B → Prop)
    (P : A → B → Prop) (l : list A) (k : list B) :
  (∀ a b x y, P a x → P b y → R a b → R' x y) →
  Forall2 P l k → StronglySorted R l → StronglySorted R' k.
Proof.
  intros HR. induction 1 as [|a x l k Hax Hlk IH]; [constructor|].
  intros [Hl Ha]%StronglySorted_inv. constructor; [by apply IH|].
  clear IH Hl. induction Hlk as [|b y l k Hby Hlk IH]; [constructor|].
  inversion_clear Ha. constructor; eauto.
Qed.

Lemma Forall_exists_Forall2 {A B} (P : A → B → Prop) (l : list A) :
  Forall (λ a, ∃ b, P a b) l → ∃ k, Forall2 P l k.
Proof.
  induction 1 as [|a l [b Hb] _ [k Hk]]; [by exists []|].
  exists (b :: k). by constructor.
Qed.

Lemma Forall2_elem_of_l {A B} (P : A → B → Prop) l k x :
  Forall2 P l k → x ∈ l → ∃ y, y ∈ k ∧ P x y.
Proof.
  induction 1 as [|a b l k Hab _ IH]; [by intros ?%elem_of_nil|].
  intros [->|Hx]%elem_of_cons.
  - exists b. split; [left|done].
  - destruct (IH Hx) as (y & ? & ?). exists y. split; [by right|done].
Qed.

Lemma Forall2_elem_of_r {A B} (P : A → B → Prop) l k y :
  Forall2 P l k → y ∈ k → ∃ x, x ∈ l ∧ P x y.
Proof.
  induction 1 as [|a b l k Hab _ IH]; [by intros ?%elem_of_nil|].
  intros [->|Hy]%elem_of_cons.
  - exists a. split; [left|done].
  - destruct (IH Hy) as (x & ? & ?). exists x. split; [by right|done].
Qed.

Lemma filter_ext_elem {A} (P Q : A → Prop) `{∀ x, Decision (P x)}
    `{∀ x, Decision (Q x)} (l : list A) :
  (∀ x, x ∈ l → P x ↔ Q x) → filter P l = filter Q l.
Proof.
  induction l as [|x l IH]; intros HPQ; [done|].
  rewrite !filter_cons.
  rewrite IH by (intros y Hy; apply HPQ; by right).
  destruct (decide (P x)) as [HP|HP], (decide (Q x)) as [HQ|HQ]; try done;
    exfalso; apply (HPQ x) in HP || apply (HPQ x) in HQ; try done; by left.
Qed.

End SqlFacts.

(** ** The text of a month and the order of texts *)

Module DateText.
Import Sql.

Lemma string_leb_trans (a b c : string) :
  String.leb a b = true → String.leb b c = true → String.leb a c = true.
Proof.
  unfold String.leb. revert b c.
  induction a as [|x a IH]; intros [|y b] [|z c]; simpl; try done.
  unfold Ascii.compare.
  destruct (N.compare_spec (N_of_ascii x) (N_of_ascii y)) as [Hxy|Hxy|Hxy],
           (N.compare_spec (N_of_ascii y) (N_of_ascii z)) as [Hyz|Hyz|Hyz];
    try done.
  - rewrite Hxy, Hyz, N.compare_refl. apply IH.
  - intros _ _. rewrite Hxy. by apply N.compare_lt_iff in Hyz as ->.
  - intros _ _. rewrite <-Hyz. by apply N.compare_lt_iff in Hxy as ->.
  - intros _ _.
    assert (N_of_ascii x < N_of_ascii z)%N as ->%N.compare_lt_iff by lia. done.
Qed.

Lemma digit_compare (a b : N) :
  (a < 10)%N → (b < 10)%N → Ascii.compare (digit a) (digit b) = N.compare a b.
Proof.
  intros Ha Hb. unfold Ascii.compare, digit.
  rewrite !N_ascii_embedding by lia.
  destruct (N.compare_spec a b) as [->|H|H].
  - apply N.compare_refl.
  - apply N.compare_lt_iff. lia.
  - apply N.compare_gt_iff. lia.
Qed.

Lemma first_of_month_chars (y m : N) :
  first_of_month (y, m)
  = String (digit_at 3 y) (String (digit_at 2 y) (String (digit_at 1 y)
      (String (digit_at 0 y) (String "-" (String (digit_at 1 m)
         (String (digit_at 0 m) "-01")))))).
Proof. reflexivity. Qed.

Lemma four_digits_split (y : N) :
  (y < 10000)%N →
  ∃ d3 d2 d1 d0 : N,
    (d3 < 10 ∧ d2 < 10 ∧ d1 < 10 ∧ d0 < 10
     ∧ y = 1000 * d3 + 100 * d2 + 10 * d1 + d0)%N
    ∧ digit_at 3 y = digit d3 ∧ digit_at 2 y = digit d2
    ∧ digit_at 1 y = digit d1 ∧ digit_at 0 y = digit d0.
Proof.
  intros Hy.
  exists ((y / 1000) mod 10)%N, ((y / 100) mod 10)%N,
         ((y / 10) mod 10)%N, ((y / 1) mod 10)%N.
  split; [|done]. zify. Z.to_euclidean_division_equations. lia.
Qed.

Lemma two_digits_split (m : N) :
  (m < 100)%N →
  ∃ d1 d0 : N,
    (d1 < 10 ∧ d0 < 10 ∧ m = 10 * d1 + d0)%N
    ∧ digit_at 1 m = digit d1 ∧ digit_at 0 m = digit d0.
Proof.
  intros Hm. exists ((m / 10) mod 10)%N, ((m / 1) mod 10)%N.
  split; [|done]. zify. Z.to_euclidean_division_equations. lia.
Qed.

Lemma first_of_month_compare (a b : N * N) :
  (a.1 < 10000)%N → (a.2 < 100)%N → (b.1 < 10000)%N → (b.2 < 100)%N →
  String.compare (first_of_month a) (first_of_month b)
  = N.compare (a.1 * 100 + a.2) (b.1 * 100 + b.2).
Proof.
  destruct a as [y m], b as [y' m']. cbn [fst snd].
  intros (a3 & a2 & a1 & a0 & Ha & Ea3 & Ea2 & Ea1 & Ea0)%four_digits_split
         (p1 & p0 & Hp & Ep1 & Ep0)%two_digits_split
         (b3 & b2 & b1 & b0 & Hb & Eb3 & Eb2 & Eb1 & Eb0)%four_digits_split
         (q1 & q0 & Hq & Eq1 & Eq0)%two_digits_split.
  rewrite !first_of_month_chars, Ea3, Ea2, Ea1, Ea0, Ep1, Ep0,
    Eb3, Eb2, Eb1, Eb0, Eq1, Eq0.
  clear Ea3 Ea2 Ea1 Ea0 Ep1 Ep0 Eb3 Eb2 Eb1 Eb0 Eq1 Eq0.
  cbn [String.compare].
  rewrite !digit_compare by tauto.
  change (Ascii.compare "-" "-") with Eq. cbn match.
  repeat match goal with
  | |- context [N.compare ?x ?y] => destruct (N.compare_spec x y)
  end; try reflexivity; exfalso; lia.
Qed.

Lemma first_of_month_leb (a b : N * N) :
  (a.1 < 10000)%N → (a.2 < 100)%N → (b.1 < 10000)%N → (b.2 < 100)%N →
  String.leb (first_of_month a) (first_of_month b) = true →
  a = b ∨ month_before a b.
Proof.
  intros Ha1 Ha2 Hb1 Hb2. unfold String.leb.
  rewrite first_of_month_compare by done.
  destruct a as [y m], b as [y' m']. unfold month_before. cbn [fst snd] in *.
  destruct (N.compare_spec (y * 100 + m) (y' * 100 + m')); [| |done];
    intros _; [left; f_equal|right]; lia.
Qed.

Lemma first_of_month_inj (a b : N * N) :
  (a.1 < 10000)%N → (a.2 < 100)%N → (b.1 < 10000)%N → (b.2 < 100)%N →
  first_of_month a = first_of_month b → a = b.
Proof.
  intros Ha1 Ha2 Hb1 Hb2 Heq.
  pose proof (first_of_month_compare a b Ha1 Ha2 Hb1 Hb2) as Hc.
  rewrite Heq in Hc.
  assert (String.compare (first_of_month b) (first_of_month b) = Eq) as Hrefl.
  { pose proof (String.compare_antisym (first_of_month b) (first_of_month b)).
    destruct (String.compare _ _); done. }
  rewrite Hrefl in Hc. symmetry in Hc. apply N.compare_eq_iff in Hc.
  destruct a, b; cbn [fst snd] in *. f_equal; lia.
Qed.

End DateText.

(** ** [GET /api/reports] *)

(** With the database reachable the handler answers 200, with the results of
    its five queries, and leaves the server as it found it. *)
Lemma api_reports_online (email : string) (db : database) :
  api_reports email (online db) =
  (Returned (json_report 200 {|
     totals := {|
       totals_income := Number (Sql.sum (inc_amount <$> income_of email db));
       totals_expenses := Number (Sql.sum (exp_amount <$> expense_of email db));
       totals_net := Number (Sql.sum (inc_amount <$> income_of email db))
                     - Number (Sql.sum (exp_amount <$> expense_of email db))
     |};
     monthlyIncome := select_monthly_income email db;
     expensesByCategory := select_expenses_by_category email db;
     budgets := {|
       budgets_total :=
         foldl (λ s r, s + Number (ct_total r)) 0
           (select_budgets_by_category email db);
       budgets_byCategory := select_budgets_by_category email db
     |}
   |}), online db).
Proof. reflexivity. Qed.

Section reports.
Variable email : string.
Variable db : database.

Local Abbreviation api_reports_here := (api_reports_online email db).

(** Without a connection the handler answers 500. *)
Lemma api_reports_offline :
  api_reports email {| tables := db; reachable := false |} =
  (Returned (json_message 500 "Error building report."),
   {| tables := db; reachable := false |}).
Proof. reflexivity. Qed.


(** The query of the expenses by category, row by row. *)
Lemma elem_of_expenses_by_category (e : category_total) :
  e ∈ select_expenses_by_category email db ↔
  ct_category e ∈ exp_category <$> expense_of email db
  ∧ ct_total e
    = Sql.sum (exp_amount <$>
               filter (λ x, exp_category x = ct_category e) (expense_of email db)).
Proof.
  unfold select_expenses_by_category.
  rewrite SqlFacts.elem_of_order_by, list_elem_of_fmap. split.
  - intros (g & -> & Hg). apply SqlFacts.elem_of_group_by in Hg as [(x & Hx & Hk) ?].
    split; [|done]. apply list_elem_of_fmap. eauto.
  - intros [Hc Ht]. apply list_elem_of_fmap in Hc as (x & Hk & Hx).
    exists (ct_category e, ct_total e). split; [by destruct e|].
    apply SqlFacts.elem_of_group_by. eauto.
Qed.

Lemma expenses_by_category_keys :
  ct_category <$> select_expenses_by_category email db
  ≡ₚ Sql.distinct (exp_category <$> expense_of email db).
Proof.
  unfold select_expenses_by_category.
  rewrite SqlFacts.order_by_fmap, <-list_fmap_compose.
  rewrite <-(SqlFacts.group_by_keys exp_category
               (λ rs, Sql.sum (exp_amount <$> rs))).
  done.
Qed.


Lemma budgets_by_category_keys :
  ct_category <$> select_budgets_by_category email db
  = Sql.distinct (bud_category <$> budget_of email db).
Proof.
  unfold select_budgets_by_category. rewrite <-list_fmap_compose.
  apply (SqlFacts.group_by_keys bud_category (λ rs, Sql.sum (bud_amount <$> rs))).
Qed.

(** C3. [expensesByCategory] has one entry per distinct category of the user's
    expenses, categories being compared as they are stored; the entry's total
    is the sum of the amounts of the expenses of that category; the entries
    are in descending order of their totals. *)
Theorem expenses_grouped_by_category :
  ∃ r, api_reports email (online db) = (Returned (json_report 200 r), online db)
    ∧ NoDup (ct_category <$> expensesByCategory r)
    ∧ (∀ c, c ∈ ct_category <$> expensesByCategory r
            ↔ c ∈ exp_category <$> expense_of email db)
    ∧ (∀ e, e ∈ expensesByCategory r →
         let group := filter (λ x, exp_category x = ct_category e)
                        (expense_of email db) in
         ct_total e = Sql.sum (exp_amount <$> group)
         ∧ Number (ct_total e) = Zsum (Number ∘ exp_amount <$> group))
    ∧ StronglySorted
        (λ a b, ∀ y, ct_total b = Some y → ∃ x, ct_total a = Some x ∧ y ≤ x)
        (expensesByCategory r).
Proof.
  eexists. split; [apply api_reports_here|]. cbn [expensesByCategory].
  split_and!.
  - rewrite expenses_by_category_keys. apply SqlFacts.NoDup_distinct.
  - intros c. by rewrite expenses_by_category_keys, SqlFacts.elem_of_distinct.
  - intros e [_ He]%elem_of_expenses_by_category. simpl. split; [done|].
    by rewrite He, SqlFacts.Number_sum, <-list_fmap_compose.
  - eapply SqlFacts.StronglySorted_weaken;
      [|apply SqlFacts.order_by_sorted].
    + intros a b. apply SqlFacts.desc_Zleb.
    + intros a b. apply SqlFacts.asc_total, SqlFacts.Zleb_total.
    + intros a b c Hab Hbc. revert Hbc Hab.
      apply SqlFacts.asc_trans, SqlFacts.Zleb_trans.
Qed.


(** C5. The categories of [expensesByCategory] are those of the user's expense
    rows and the categories of [budgets.byCategory] those of the user's budget
    rows; neither list depends on the other table. *)
Theorem category_sets_independent :
  ∃ r, api_reports email (online db) = (Returned (json_report 200 r), online db)
    ∧ (∀ c, c ∈ ct_category <$> expensesByCategory r
            ↔ c ∈ exp_category <$> expense_of email db)
    ∧ (∀ c, c ∈ ct_category <$> budgets_byCategory (budgets r)
            ↔ c ∈ bud_category <$> budget_of email db)
    ∧ (∀ db' r',
         api_reports email (online db')
         = (Returned (json_report 200 r'), online db') →
         (expense db' = expense db →
          expensesByCategory r' = expensesByCategory r)
         ∧ (budget db' = budget db →
            budgets_byCategory (budgets r') = budgets_byCategory (budgets r))).
Proof.
  eexists. split; [apply api_reports_here|].
  cbn [expensesByCategory budgets budgets_byCategory]. split_and!.
  - intros c. by rewrite expenses_by_category_keys, SqlFacts.elem_of_distinct.
  - intros c. by rewrite budgets_by_category_keys, SqlFacts.elem_of_distinct.
  - intros db' r' Hr'. rewrite api_reports_online in Hr'.
    injection Hr' as <-. cbn [expensesByCategory budgets budgets_byCategory].
    unfold select_expenses_by_category, select_budgets_by_category,
      expense_of, budget_of.
    split; by intros ->.
Qed.

End reports.

(** ** [monthlyIncome] *)

Section monthly.

Variable email : string.
Variable db : database.
Hypothesis dated :
  Forall (λ row, ∃ d, inc_date row = Some d ∧ in_calendar d) (income_of email db).

Lemma monthly_keys :
  mt_date <$> select_monthly_income email db
  ≡ₚ Sql.distinct (month_key <$> income_of email db).
Proof.
  unfold select_monthly_income.
  rewrite SqlFacts.order_by_fmap, <-list_fmap_compose.
  by rewrite <-(SqlFacts.group_by_keys month_key (λ rs, Sql.sum (inc_amount <$> rs))).
Qed.

Lemma elem_of_monthly (e : month_total) :
  e ∈ select_monthly_income email db ↔
  mt_date e ∈ month_key <$> income_of email db
  ∧ mt_total e
    = Sql.sum (inc_amount <$>
               filter (λ x, month_key x = mt_date e) (income_of email db)).
Proof.
  unfold select_monthly_income.
  rewrite SqlFacts.elem_of_order_by, list_elem_of_fmap. split.
  - intros (g & -> & Hg). apply SqlFacts.elem_of_group_by in Hg as [(x & Hx & Hk) ?].
    split; [|done]. apply list_elem_of_fmap. eauto.
  - intros [Hc Ht]. apply list_elem_of_fmap in Hc as (x & Hk & Hx).
    exists (mt_date e, mt_total e). split; [by destruct e|].
    apply SqlFacts.elem_of_group_by. eauto.
Qed.

Lemma dated_key row :
  row ∈ income_of email db →
  ∃ d, inc_date row = Some d ∧ in_calendar d
       ∧ month_key row = Some (Sql.first_of_month (Sql.year_month d)).
Proof.
  intros Hrow. eapply Forall_forall in dated as (d & Hd & Hcal); [|done].
  exists d. split_and!; [done..|]. unfold month_key. by rewrite Hd.
Qed.

Lemma key_month_iff row ym :
  row ∈ income_of email db → (ym.1 < 10000 ∧ ym.2 < 100)%N →
  month_key row = Some (Sql.first_of_month ym)
  ↔ Sql.year_month <$> inc_date row = Some ym.
Proof.
  intros (d & Hd & [Hy Hm] & Hkey)%dated_key [Hy' Hm'].
  rewrite Hkey, Hd. cbn [fmap option_fmap option_map]. split.
  - intros Heq. f_equal.
    apply DateText.first_of_month_inj; cbn [Sql.year_month fst snd];
      [lia|lia|done|done|congruence].
  - by intros [= ->].
Qed.

(** C2. When the income rows of the user carry calendar dates,
    [monthlyIncome] has one entry per month in which an income falls, keyed by
    the text of the first day of that month, with the sum of the incomes of
    the month as its total; the entries are in strictly ascending
    chronological order and no key occurs twice. *)
Theorem monthly_income_grouped :
  ∃ r ms,
    api_reports email (online db) = (Returned (json_report 200 r), online db)
    ∧ Forall2
        (λ e ym,
           mt_date e = Some (Sql.first_of_month ym)
           ∧ let group :=
               filter (λ row, Sql.year_month <$> inc_date row = Some ym)
                 (income_of email db) in
             mt_total e = Sql.sum (inc_amount <$> group)
             ∧ Number (mt_total e) = Zsum (Number ∘ inc_amount <$> group))
        (monthlyIncome r) ms
    ∧ (∀ ym, ym ∈ ms ↔
         ∃ row d, row ∈ income_of email db ∧ inc_date row = Some d
                  ∧ Sql.year_month d = ym)
    ∧ StronglySorted month_before ms
    ∧ NoDup (mt_date <$> monthlyIncome r).
Proof.
  set (occurs ym := ∃ row d, row ∈ income_of email db ∧ inc_date row = Some d
                             ∧ Sql.year_month d = ym).
  set (P (e : month_total) (ym : N * N) :=
         (mt_date e = Some (Sql.first_of_month ym)
          ∧ let group :=
              filter (λ row, Sql.year_month <$> inc_date row = Some ym)
                (income_of email db) in
            mt_total e = Sql.sum (inc_amount <$> group)
            ∧ Number (mt_total e) = Zsum (Number ∘ inc_amount <$> group))
         ∧ (ym.1 < 10000 ∧ ym.2 < 100)%N ∧ occurs ym).
  assert (∃ ms, Forall2 P (select_monthly_income email db) ms) as [ms Hms].
  { apply SqlFacts.Forall_exists_Forall2, Forall_forall. intros e [He Ht]%elem_of_monthly.
    apply list_elem_of_fmap in He as (row & Hk & Hrow).
    destruct (dated_key row Hrow) as (d & Hd & [Hy Hm] & Hkey).
    assert ((Sql.year_month d).1 < 10000 ∧ (Sql.year_month d).2 < 100)%N
      as Hvalid by (cbn [Sql.year_month fst snd]; lia).
    assert (filter (λ x, month_key x = mt_date e) (income_of email db)
            = filter (λ x, Sql.year_month <$> inc_date x
                           = Some (Sql.year_month d)) (income_of email db))
      as Hfilter.
    { apply SqlFacts.filter_ext_elem. intros x Hx. rewrite Hk, Hkey.
      by apply key_month_iff. }
    exists (Sql.year_month d).
    split_and!; [congruence| |tauto|tauto|by exists row, d].
    cbv zeta. rewrite <-Hfilter. split; [done|].
    by rewrite Ht, SqlFacts.Number_sum, <-list_fmap_compose. }
  assert (NoDup (mt_date <$> select_monthly_income email db)) as Hnd.
  { rewrite monthly_keys. apply SqlFacts.NoDup_distinct. }
  eexists _, ms. split; [apply api_reports_online|]. cbn [monthlyIncome].
  split_and!; [| | |done].
  - eapply Forall2_impl; [exact Hms|]. by intros e ym [? _].
  - intros ym. split.
    + intros Hym.
      by destruct (SqlFacts.Forall2_elem_of_r _ _ _ _ Hms Hym) as (e & _ & [_ [_ Hocc]]).
    + intros (row & d & Hrow & Hd & <-).
      destruct (dated_key row Hrow) as (d' & Hd' & [Hy Hm] & Hkey).
      assert (d' = d) as -> by congruence.
      assert (month_key row ∈ mt_date <$> select_monthly_income email db) as He.
      { rewrite monthly_keys. apply SqlFacts.elem_of_distinct.
        by apply list_elem_of_fmap_2. }
      apply list_elem_of_fmap in He as (e & He & Hin).
      destruct (SqlFacts.Forall2_elem_of_l _ _ _ _ Hms Hin)
        as (ym & Hym & [[Hdate _] [[??] _]]).
      assert (ym = Sql.year_month d) as <-; [|done].
      apply DateText.first_of_month_inj; cbn [Sql.year_month fst snd];
        [done|done|lia|lia|congruence].
  - apply (SqlFacts.StronglySorted_Forall2
             (λ a b, Sql.asc String.leb (mt_date a) (mt_date b) = true
                     ∧ mt_date a ≠ mt_date b)
             month_before P (select_monthly_income email db)); [|done|].
    + intros a b x y [[Ha _] [[??] _]] [[Hb _] [[??] _]] [Hle Hne].
      rewrite Ha, Hb in Hle, Hne. cbn [Sql.asc] in Hle.
      apply DateText.first_of_month_leb in Hle as [->|?]; done.
    + apply (SqlFacts.StronglySorted_strict _ mt_date); [|done].
      apply (SqlFacts.order_by_sorted
               (λ a b, Sql.asc String.leb (mt_date a) (mt_date b))).
      * intros a b. apply SqlFacts.asc_total, String.leb_total.
      * intros a b c. apply SqlFacts.asc_trans, DateText.string_leb_trans.
Qed.

End monthly.

(** The theorem at the sample of three dated incomes of ["ann"]. *)
Lemma monthly_income_grouped_witness :
  Forall (λ row, ∃ d, inc_date row = Some d ∧ in_calendar d)
    (income_of "ann" db_months)
  ∧ ∃ r ms,
      api_reports "ann" (online db_months)
      = (Returned (json_report 200 r), online db_months)
      ∧ Forall2
          (λ e ym,
             mt_date e = Some (Sql.first_of_month ym)
             ∧ let group :=
                 filter (λ row, Sql.year_month <$> inc_date row = Some ym)
                   (income_of "ann" db_months) in
               mt_total e = Sql.sum (inc_amount <$> group)
               ∧ Number (mt_total e) = Zsum (Number ∘ inc_amount <$> group))
          (monthlyIncome r) ms
      ∧ (∀ ym, ym ∈ ms ↔
           ∃ row d, row ∈ income_of "ann" db_months ∧ inc_date row = Some d
                    ∧ Sql.year_month d = ym)
      ∧ StronglySorted month_before ms
      ∧ NoDup (mt_date <$> monthlyIncome r).
Proof.
  assert (Forall (λ row, ∃ d, inc_date row = Some d ∧ in_calendar d)
            (income_of "ann" db_months)) as Hdated.
  { repeat constructor; eexists; (split; [reflexivity|]);
      unfold in_calendar; simpl; lia. }
  split; [exact Hdated|].
  exact (monthly_income_grouped "ann" db_months Hdated).
Defined.

(** Spec P2: incomes of 100 and 50 in January 2024 make one entry of 150,
    after the entry of December 2023; the other user's income is not counted. *)
Example monthly_income_sample :
  select_monthly_income "ann" db_months
  = [{| mt_date := Some "2023-12-01"; mt_total := Some 70 |};
     {| mt_date := Some "2024-01-01"; mt_total := Some 150 |}].
Proof. vm_compute. reflexivity. Qed.

(** Spec P3 and P4 on the sample of expenses and budgets. *)
Example categories_sample :
  (api_reports "ann" (online db_categories)).1
  = Returned (json_report 200 {|
      totals := {| totals_income := 0; totals_expenses := 180;
                   totals_net := -180 |};
      monthlyIncome := [];
      expensesByCategory :=
        [{| ct_category := Some "Rent"; ct_total := Some 150 |};
         {| ct_category := Some "Food"; ct_total := Some 30 |}];
      budgets := {|
        budgets_total := 1000;
        budgets_byCategory :=
          [{| ct_category := Some "Rent"; ct_total := Some 1000 |}]
      |}
    |}).
Proof. vm_compute. reflexivity. Qed.

(** Categories with equal totals stay in the order in which they are first
    met. *)
Example equal_totals_first_encountered :
  select_expenses_by_category "ann"
    {| income := [];
       expense := [expense_sample 1 "ann" "Food" 10;
                   expense_sample 2 "ann" "Rent" 25;
                   expense_sample 3 "ann" "Books" 10];
       budget := [] |}
  = [{| ct_category := Some "Rent"; ct_total := Some 25 |};
     {| ct_category := Some "Food"; ct_total := Some 10 |};
     {| ct_category := Some "Books"; ct_total := Some 10 |}].
Proof. by vm_compute. Qed.

(** Two submissions of the budget form for [Rent] insert two rows, which the
    report sums. *)
Example budget_posted_twice :
  let body := {| body_category := Some " Rent "; body_amount := Some 500;
                 body_cadence := None |} in
  (api_budgets_post "ann" body;;
   api_budgets_post "ann" body;;
   api_reports "ann") (online db_empty)
  = (Returned (json_report 200 {|
       totals := {| totals_income := 0; totals_expenses := 0; totals_net := 0 |};
       monthlyIncome := [];
       expensesByCategory := [];
       budgets := {|
         budgets_total := 1000;
         budgets_byCategory :=
           [{| ct_category := Some "Rent"; ct_total := Some 1000 |}]
       |}
     |}),
     online {| income := []; expense := [];
               budget := [budget_sample 1 "ann" "Rent" 500;
                          budget_sample 2 "ann" "Rent" 500] |}).
Proof. vm_compute. reflexivity. Qed.

(** ** The monthly aggregation of [income.js] *)

Module IncomeJsFacts.
Import IncomeJs.

Section aggregate.
Variable new_Date : option string → option Date.
Variable from_cutoff : Z → Date → string → bool.



End aggregate.

(** Of three rows, the one with an unreadable date is left out and the other
    two are summed under their month. *)
Example aggregateByMonth_sample :
  aggregateByMonth new_Date_sample (λ _ _ _, true) ALL
    [{| date := Some "2024-01-05"; amount := Some 100 |};
     {| date := Some "not a date"; amount := Some 999 |};
     {| date := Some "2024-01-05"; amount := Some 50 |}]
  = (["2024-01"], [150]).
Proof. vm_compute. reflexivity. Qed.

End IncomeJsFacts.

(** ** Rows with missing fields, purity *)

Section robustness.
Variable email : string.
Variable db : database.


(** No income row of the user is left out of [monthlyIncome]: the entry of
    its key sums the rows of that key, the row itself among them. *)
Lemma every_income_row_grouped (row : income_row) :
  row ∈ income_of email db →
  ∃ e, e ∈ select_monthly_income email db
       ∧ mt_date e = month_key row
       ∧ mt_total e
         = Sql.sum (inc_amount <$>
                    filter (λ x, month_key x = month_key row)
                      (income_of email db)).
Proof.
  intros Hrow.
  assert (month_key row ∈ mt_date <$> select_monthly_income email db) as Hk.
  { rewrite monthly_keys, SqlFacts.elem_of_distinct.
    by apply list_elem_of_fmap_2. }
  apply list_elem_of_fmap in Hk as (e & He & Hin).
  exists e. split_and!; [done..|].
  apply elem_of_monthly in Hin as [_ ->]. f_equal. f_equal.
  apply SqlFacts.filter_ext_elem. intros x _. by rewrite He.
Qed.


End robustness.


(** An incomplete date, which MySQL stores with a zero month, is formatted
    and grouped like any other. *)
Example zero_date_grouped :
  select_monthly_income "ann"
    {| income := [income_sample 1 "ann" 100 (on_day 0 0 0)];
       expense := []; budget := [] |}
  = [{| mt_date := Some "0000-00-01"; mt_total := Some 100 |}].
Proof. by vm_compute. Qed.


Section purity.
Variable email : string.



End purity.

(** ** [unformatCurrency] *)

Module CurrencyFacts.

(** What [strip] keeps: the characters of the class, in their order. *)
Lemma strip_chars (t : string) :
  list_ascii_of_string (strip t)
  = filter (λ c, amount_char c = true) (list_ascii_of_string t).
Proof.
  induction t as [|c t IH]; [done|]. cbn [strip list_ascii_of_string].
  rewrite filter_cons. destruct (amount_char c) eqn:Hc.
  - rewrite decide_True by done. cbn [list_ascii_of_string]. by rewrite IH.
  - by rewrite decide_False by done.
Qed.

Lemma amount_char_spec (c : ascii) :
  amount_char c = true ↔
  (48 ≤ N_of_ascii c ≤ 57)%N ∨ c = "."%char ∨ c = "-"%char.
Proof.
  unfold amount_char, is_digit, Ascii.leb, Ascii.compare.
  rewrite !orb_true_iff, andb_true_iff, !bool_decide_eq_true.
  change (N_of_ascii "0") with 48%N. change (N_of_ascii "9") with 57%N.
  destruct (N.compare_spec 48 (N_of_ascii c)),
           (N.compare_spec (N_of_ascii c) 57); intuition (try done; try lia).
Qed.

(** The helpers of [income.js] and [expense.js] never return [NaN] or an
    infinity. *)
Lemma unformatCurrency_finite (s : js_value) :
  isFinite (IncomeJs.unformatCurrency s) = true
  ∧ isFinite (ExpenseJs.unformatCurrency s) = true.
Proof.
  unfold IncomeJs.unformatCurrency, ExpenseJs.unformatCurrency.
  by destruct (Number_of_string (strip (or_empty s))).
Qed.

(** No helper returns [NaN], the one of [budget.js] included. *)
Lemma unformatCurrency_not_NaN (s : js_value) :
  IncomeJs.unformatCurrency s ≠ NaN
  ∧ ExpenseJs.unformatCurrency s ≠ NaN
  ∧ BudgetJs.unformatCurrency s ≠ NaN.
Proof.
  unfold IncomeJs.unformatCurrency, ExpenseJs.unformatCurrency,
    BudgetJs.unformatCurrency.
  destruct (Number_of_string (strip (or_empty s))) as [| |m k]; [done..|].
  cbn [isFinite falsy]. by case_bool_decide.
Qed.

(** Missing values, the empty text and texts without a number read as zero. *)
Example unformatCurrency_zero :
  Forall (λ s, IncomeJs.unformatCurrency s = Finite 0 0
               ∧ BudgetJs.unformatCurrency s = Finite 0 0)
    [js_undefined; js_null; js_string ""; js_string "abc"; js_string "$";
     js_string "-"; js_string "."; js_string "1-2"; js_string "1.2.3"].
Proof. repeat constructor. Qed.

Example unformatCurrency_amount :
  IncomeJs.unformatCurrency (js_string "$1,234.56") = Finite 123456 2
  ∧ BudgetJs.unformatCurrency (js_string "$1,234.56") = Finite 123456 2
  ∧ IncomeJs.unformatCurrency (js_string "-$7") = Finite (-7) 0.
Proof. repeat split. Qed.

(** C9 (defect of [budget.js]). On the digit [1] followed by 309 zeros the
    helper of [budget.js] returns [Infinity], which is not a finite number,
    where the helpers of [income.js] and [expense.js] return [0]. *)
Theorem budget_unformatCurrency_overflows :
  BudgetJs.unformatCurrency (js_string text_1e309) = Infinity false
  ∧ isFinite (BudgetJs.unformatCurrency (js_string text_1e309)) = false
  ∧ IncomeJs.unformatCurrency (js_string text_1e309) = Finite 0 0
  ∧ ExpenseJs.unformatCurrency (js_string text_1e309) = Finite 0 0.
Proof. by vm_compute. Qed.

End CurrencyFacts.

(** ** The budget maps of [budget.js] and [report.js] *)

Section budget_maps.
Context {A : Type} (key : A → string) (val : A → Z).



End budget_maps.



(** The two rows [{Rent, 500}] that the report sums to 1000 give 500 in the
    map of the budget page. *)
Example budget_map_differs_from_report :
  select_budgets_by_category "ann" db_categories
  = [{| ct_category := Some "Rent"; ct_total := Some 1000 |}]
  ∧ BudgetJs.loadEverything_budgets (select_budgets "ann" db_categories)
    = {["Rent" := 500]}
  ∧ ReportJs.loadReport_budgetsObj (select_budgets "ann" db_categories)
    = {["Rent" := 500]}.
Proof. split; [by vm_compute|]. split; by vm_compute. Qed.

(** * Further properties *)

(** ** More about [GET /api/reports] *)

Module ReportFacts.

Lemma expenses_by_category_total (email : string) (db : database) :
  Zsum (Number ∘ ct_total <$> select_expenses_by_category email db)
  = Number (Sql.sum (exp_amount <$> expense_of email db)).
Proof.
  unfold select_expenses_by_category.
  rewrite (SqlFacts.Zsum_perm _ _
             (SqlFacts.order_by_fmap (Number ∘ ct_total) _ _)).
  rewrite <-list_fmap_compose.
  rewrite SqlFacts.Number_sum, <-list_fmap_compose.
  apply (SqlFacts.group_by_sum_total exp_category exp_amount).
Qed.

Lemma monthly_income_total (email : string) (db : database) :
  Zsum (Number ∘ mt_total <$> select_monthly_income email db)
  = Number (Sql.sum (inc_amount <$> income_of email db)).
Proof.
  unfold select_monthly_income.
  rewrite (SqlFacts.Zsum_perm _ _
             (SqlFacts.order_by_fmap (Number ∘ mt_total) _ _)).
  rewrite <-list_fmap_compose.
  rewrite SqlFacts.Number_sum, <-list_fmap_compose.
  apply (SqlFacts.group_by_sum_total month_key inc_amount).
Qed.

End ReportFacts.

Section report_invariants.
Variable email : string.
Variable db : database.

(** X1. The totals of the entries of [monthlyIncome], dated or not, add up to
    [totals.income]. *)
Theorem monthly_income_adds_up_to_total :
  ∃ r, api_reports email (online db) = (Returned (json_report 200 r), online db)
    ∧ Zsum (Number ∘ mt_total <$> monthlyIncome r) = totals_income (totals r).
Proof.
  eexists. split; [apply api_reports_online|].
  apply ReportFacts.monthly_income_total.
Qed.

(** X2. The totals of the entries of [expensesByCategory] add up to
    [totals.expenses]. *)
Theorem expenses_by_category_add_up_to_total :
  ∃ r, api_reports email (online db) = (Returned (json_report 200 r), online db)
    ∧ Zsum (Number ∘ ct_total <$> expensesByCategory r)
      = totals_expenses (totals r).
Proof.
  eexists. split; [apply api_reports_online|].
  apply ReportFacts.expenses_by_category_total.
Qed.

End report_invariants.

(** ** [POST /api/budgets] *)

Module BudgetPostFacts.



(** The run of the handler on a body that passes the check of the fields,
    with the database reachable. *)
Lemma api_budgets_post_online (email c : string) (a : Z) (body : budget_body)
    (db : database) :
  body_category body = Some c → c ≠ "" →
  body_amount body = Some a → a ≠ 0 →
  api_budgets_post email body (online db)
  = (Returned (json_id 201 (next_budget_id db)),
     online (insert_budget email (trim c) a
               (default "monthly" (body_cadence body)) db).2).
Proof.
  intros Hc Hne Ha Hnz. unfold api_budgets_post. rewrite Hc, Ha.
  rewrite bool_decide_eq_false_2 by done.
  rewrite bool_decide_eq_false_2 by done. reflexivity.
Qed.

Lemma budget_of_insert (email email' c cad : string) (a : Z) (db : database) :
  budget_of email' (insert_budget email c a cad db).2
  = budget_of email' db
    ++ (if decide (email = email')
        then [{| bud_id := next_budget_id db; bud_user_email := email;
                 bud_category := Some c; bud_amount := Some a;
                 bud_cadence := Some cad |}]
        else []).
Proof.
  unfold budget_of, insert_budget. cbn [snd budget].
  by rewrite filter_app.
Qed.

(** The run of the handler on a body that fails the check of the fields. *)
Lemma api_budgets_post_missing (email : string) (body : budget_body)
    (s : server) :
  body_category body = None ∨ body_category body = Some ""
  ∨ body_amount body = None ∨ body_amount body = Some 0 →
  api_budgets_post email body s
  = (Returned (json_error 400 "Missing fields."), s).
Proof.
  unfold api_budgets_post.
  destruct (body_category body) as [c|], (body_amount body) as [a|]; try done.
  destruct (decide (c = "")) as [->|Hc].
  { by rewrite bool_decide_eq_true_2. }
  destruct (decide (a = 0)) as [->|Ha].
  { rewrite (bool_decide_eq_true_2 (0 = 0)) by done. by rewrite orb_true_r. }
  intros [?|[?|[?|?]]]; congruence.
Qed.

End BudgetPostFacts.

Section budget_post.
Variable email : string.
Variable body : budget_body.

(** X3. The handler answers 400 exactly when the category is missing or empty
    or the amount is missing or zero, and then touches nothing, whether the
    database can be reached or not. *)
Theorem budget_post_rejects_missing_fields (s : server) :
  api_budgets_post email body s
  = (Returned (json_error 400 "Missing fields."), s)
  ↔ body_category body = None ∨ body_category body = Some ""
    ∨ body_amount body = None ∨ body_amount body = Some 0.
Proof.
  split; [|apply BudgetPostFacts.api_budgets_post_missing].
  unfold api_budgets_post.
  destruct (body_category body) as [c|], (body_amount body) as [a|];
    [|by auto..].
  destruct (decide (c = "")) as [->|Hc]; [by auto|].
  destruct (decide (a = 0)) as [->|Ha]; [by auto|].
  rewrite !bool_decide_eq_false_2 by done. cbn [orb].
  destruct s as [db [|]]; by intros [= ?].
Qed.



(** X6. A budget posted by one user changes nothing in the report of another
    user, whatever the body and whether the database can be reached or not. *)
Theorem budget_post_keeps_other_reports (email' : string) (s : server) :
  email' ≠ email →
  ∃ resp s',
    api_reports email' s = (Returned resp, s)
    ∧ (api_budgets_post email body;; api_reports email') s = (Returned resp, s').
Proof.
  intros Hne. unfold mbind, Js_bind.
  destruct (decide (body_category body = None ∨ body_category body = Some ""
                    ∨ body_amount body = None ∨ body_amount body = Some 0))
    as [Hbad|Hok].
  { rewrite (BudgetPostFacts.api_budgets_post_missing email body s Hbad).
    destruct s as [db [|]]; eexists _, _;
      (split; [first [apply api_reports_online|apply api_reports_offline]|]);
      first [apply api_reports_online|apply api_reports_offline]. }
  destruct (body_category body) as [c|] eqn:Hc; [|tauto].
  destruct (body_amount body) as [a|] eqn:Ha; [|tauto].
  assert (c ≠ "") by (intros ->; tauto).
  assert (a ≠ 0) by (intros ->; tauto).
  destruct s as [db [|]].
  - fold (online db).
    rewrite (BudgetPostFacts.api_budgets_post_online email c a) by done.
    eexists _, _. split; [apply api_reports_online|].
    rewrite api_reports_online.
    unfold select_budgets_by_category.
    rewrite BudgetPostFacts.budget_of_insert, decide_False, app_nil_r by done.
    reflexivity.
  - eexists _, _. split; [apply api_reports_offline|].
    unfold api_budgets_post. rewrite Hc, Ha.
    rewrite !bool_decide_eq_false_2 by done. reflexivity.
Qed.

End budget_post.



(** The theorem at a budget of ["ann"] and the report of ["bob"]. *)
Lemma budget_post_keeps_other_reports_witness :
  "bob" ≠ "ann"
  ∧ ∃ resp s',
      api_reports "bob" (online db_months) = (Returned resp, online db_months)
      ∧ (api_budgets_post "ann" body_sample;; api_reports "bob")
          (online db_months)
        = (Returned resp, s').
Proof.
  assert ("bob" ≠ "ann") as Hne by discriminate.
  split; [exact Hne|].
  exact (budget_post_keeps_other_reports "ann" body_sample "bob"
           (online db_months) Hne).
Defined.

(** ** Texts as lists of characters, [trim] *)

Module TextFacts.







End TextFacts.

Section budget_post_category.
Variable email : string.
Variable body : budget_body.


End budget_post_category.


(** ** [GET /api/budgets] and the pages that read it *)

Module BudgetListFacts.



Lemma filter_none {A} (P : A → Prop) `{∀ x, Decision (P x)} (l : list A) :
  Forall (λ x, ¬ P x) l → filter P l = [].
Proof.
  induction 1 as [|x l Hx Hl IH]; [done|]. by rewrite filter_cons_False.
Qed.




End BudgetListFacts.

Section budget_list.
Variable email : string.
Variable db : database.




End budget_list.


Section budget_post_get.
Variable email : string.
Variable body : budget_body.


End budget_post_get.




(** ** The bearer token *)

Module AuthFacts.
Import Auth.

Lemma split_nonempty (sep : ascii) (s : string) : split sep s ≠ [].
Proof.
  induction s as [|c s IH]; [done|]. cbn [split].
  case_bool_decide; [done|]. by destruct (split sep s).
Qed.

(** A text without the separator is one part. *)
Lemma split_without (sep : ascii) (s : string) :
  sep ∉ list_ascii_of_string s → split sep s = [s].
Proof.
  induction s as [|c s IH]; [done|]. cbn [list_ascii_of_string split].
  rewrite not_elem_of_cons. intros [Hc Hs].
  rewrite bool_decide_eq_false_2 by done. by rewrite IH.
Qed.

Lemma split_one (sep : ascii) (s p : string) :
  split sep s = [p] → s = p ∧ sep ∉ list_ascii_of_string p.
Proof.
  revert p. induction s as [|c s IH]; intros p.
  - intros [= <-]. split; [done|]. apply not_elem_of_nil.
  - cbn [split]. case_bool_decide as Hc.
    + intros [= _ Hs]. by destruct (split_nonempty sep s).
    + destruct (split sep s) as [|q [|??]] eqn:Hs;
        [by destruct (split_nonempty sep s)| |done].
      intros [= <-]. destruct (IH q eq_refl) as [-> Hq].
      split; [done|]. cbn [list_ascii_of_string].
      rewrite not_elem_of_cons. split; [congruence|done].
Qed.

(** Two parts come from a text with the separator exactly once. *)
Lemma split_two (sep : ascii) (s p q : string) :
  split sep s = [p; q] ↔
  s = p +:+ String sep q
  ∧ (sep ∉ list_ascii_of_string p) ∧ (sep ∉ list_ascii_of_string q).
Proof.
  split.
  - revert p. induction s as [|c s IH]; intros p; [done|].
    cbn [split]. case_bool_decide as Hc.
    + intros [= <- Hs]. apply split_one in Hs as [-> Hq]. subst c.
      split; [done|]. split; [apply not_elem_of_nil|done].
    + destruct (split sep s) as [|p' [|q' [|??]]] eqn:Hs;
        [by destruct (split_nonempty sep s)|done| |done].
      intros [= <- <-]. destruct (IH p' eq_refl) as (-> & Hp & Hq).
      split; [done|]. split; [|done]. cbn [list_ascii_of_string].
      rewrite not_elem_of_cons. split; [congruence|done].
  - intros (-> & Hp & Hq). induction p as [|c p IH].
    + change ("" +:+ String sep q) with (String sep q). cbn [split].
      rewrite bool_decide_eq_true_2 by done. by rewrite split_without.
    + change (String c p +:+ String sep q) with (String c (p +:+ String sep q)).
      cbn [list_ascii_of_string] in Hp. apply not_elem_of_cons in Hp as [Hc Hp].
      cbn [split]. rewrite bool_decide_eq_false_2 by congruence.
      by rewrite IH.
Qed.

(** The headers from which the server reads a token. *)
Lemma header_token_Some (authorization : option string) (token : string) :
  header_token authorization = Some token ↔
  authorization = Some ("Bearer " +:+ token)
  ∧ (" "%char ∉ list_ascii_of_string token).
Proof.
  unfold header_token. split.
  - destruct (split " " (default "" authorization))
      as [|scheme [|token' [|??]]] eqn:Hs; [done..| |done].
    case_bool_decide as Hscheme; [|done]. intros [= ->]. subst scheme.
    apply split_two in Hs as (Hhdr & _ & Htoken). split; [|done].
    destruct authorization as [hdr|]; simpl in Hhdr; [by rewrite Hhdr|done].
  - intros [-> Htoken].
    change (default "" (Some ("Bearer " +:+ token))) with ("Bearer " +:+ token).
    assert (split " " ("Bearer " +:+ token) = ["Bearer"; token]) as ->.
    { apply (split_two " " _ "Bearer" token). split; [done|]. split; [|done].
      apply (bool_decide_unpack _). by vm_compute. }
    by rewrite bool_decide_eq_true_2.
Qed.

End AuthFacts.

Section token_round_trip.
Variable jwt_verify : string → option string.
Variable users : list string.

(** X13. The header that a page sends for its stored token is read back by the
    server as that token, when the token has no blank; a page without a stored
    token sends no header and the server finds no token. *)
Theorem stored_token_is_read_back (token jwtToken : option string) :
  " "%char ∉ list_ascii_of_string (Auth.getToken token jwtToken) →
  Auth.header_token (Auth.auth token jwtToken)
  = (if decide (Auth.getToken token jwtToken = "") then None
     else Some (Auth.getToken token jwtToken)).
Proof.
  intros Hblank. unfold Auth.auth.
  destruct (decide (Auth.getToken token jwtToken = "")) as [Hempty|Hsome].
  - by rewrite bool_decide_eq_true_2.
  - rewrite bool_decide_eq_false_2 by done.
    by apply AuthFacts.header_token_Some.
Qed.


End token_round_trip.

(** The theorem at the stored token [abc]. *)
Lemma stored_token_is_read_back_witness :
  Auth.header_token (Auth.auth (Some "abc") None) = Some "abc".
Proof.
  apply (stored_token_is_read_back (Some "abc") None).
  apply (bool_decide_unpack _). vm_compute. exact I.
Defined.

(** ** More about [aggregateByMonth] *)

Module AggregateFacts.
Import IncomeJs.

Lemma leb_ne_ltb (a b : string) :
  String.leb a b = true → a ≠ b → String.ltb a b = true.
Proof.
  unfold String.leb, String.ltb. intros Hle Hne.
  destruct (String.compare a b) eqn:Hc; [|done..].
  by apply String.compare_eq_iff in Hc.
Qed.


Section aggregate.
Variable new_Date : option string → option Date.
Variable from_cutoff : Z → Date → string → bool.

(** The label of the month of a row, if its date is valid. *)
Local Abbreviation label_of r :=
  ((λ d, pretty (getFullYear d) +:+ "-" +:+ pad2 (getMonth d + 1))
   <$> new_Date (date r)).

Local Abbreviation loop rows :=
  (foldl (aggregate_row new_Date) (∅, None) rows).

(** What the loop leaves in [map]: under the label of a month, the sum of the
    amounts of the rows of that month; nothing under other keys. *)
Lemma loop_map (rows : list income_item) (ym : string) :
  (loop rows).1 !! ym
  = (if decide (Exists (λ r, label_of r = Some ym) rows)
     then Some (Zsum (Number ∘ amount <$>
                      filter (λ r, label_of r = Some ym) rows))
     else None).
Proof.
  induction rows as [|x rows IH] using rev_ind.
  { cbn [foldl fst]. rewrite lookup_empty.
    by rewrite decide_False by (by intros ?%Exists_nil). }
  rewrite foldl_app. cbn [foldl]. unfold aggregate_row at 1.
  rewrite filter_app, fmap_app, SqlFacts.Zsum_app, filter_cons, filter_nil.
  destruct (new_Date (date x)) as [d|] eqn:Hd.
  - cbn [fmap option_fmap option_map fst].
    remember (pretty (getFullYear d) +:+ "-" +:+ pad2 (getMonth d + 1)) as ym'
      eqn:Hym'.
    destruct (decide (ym' = ym)) as [->|Hne].
    + rewrite lookup_insert_eq, IH.
      rewrite (decide_True (P := Some ym = Some ym)) by done.
      rewrite (decide_True (P := Exists _ (rows ++ [x]))).
      2:{ apply Exists_app. right. constructor. rewrite Hd. simpl.
          by rewrite <-Hym'. }
      f_equal.
      change (Zsum (Number ∘ amount <$> [x])) with (Number (amount x) + 0).
      case_decide as Hrows; [simpl; lia|].
      rewrite (BudgetListFacts.filter_none _ rows); [simpl; lia|].
      apply Forall_forall. intros r Hr Hlab. apply Hrows.
      apply Exists_exists. eauto.
    + rewrite lookup_insert_ne, IH by done.
      rewrite (decide_False (P := Some ym' = Some ym)) by congruence.
      change (Zsum (Number ∘ amount <$> [])) with 0. rewrite Z.add_0_r.
      destruct (decide (Exists (λ r, label_of r = Some ym) rows)) as [He|He].
      * rewrite decide_True; [done|]. apply Exists_app. by left.
      * rewrite decide_False; [done|].
        intros [?|Hx]%Exists_app; [done|].
        apply Exists_cons in Hx as [Hx|?%Exists_nil]; [|done].
        rewrite Hd in Hx. simpl in Hx. congruence.
  - rewrite IH. cbn [fmap option_fmap option_map].
    rewrite (decide_False (P := None = Some ym)) by done.
    change (Zsum (Number ∘ amount <$> [])) with 0. rewrite Z.add_0_r.
    destruct (decide (Exists (λ r, label_of r = Some ym) rows)) as [He|He].
    + rewrite decide_True; [done|]. apply Exists_app. by left.
    + rewrite decide_False; [done|].
      intros [?|Hx]%Exists_app; [done|].
      apply Exists_cons in Hx as [Hx|?%Exists_nil]; [|done].
      by rewrite Hd in Hx.
Qed.

(** The keys of [map] are the labels of the months of the rows. *)
Lemma loop_dom (rows : list income_item) (ym : string) :
  ym ∈ dom (loop rows).1 ↔ ∃ r, r ∈ rows ∧ label_of r = Some ym.
Proof.
  rewrite elem_of_dom, loop_map, <-Exists_exists.
  case_decide; split; [done|by eexists|by intros [??]|done].
Qed.

Lemma sorted_keys_spec (map : gmap string Z) :
  StronglySorted (λ a b, String.ltb a b = true) (sorted_keys map)
  ∧ ∀ ym, ym ∈ sorted_keys map ↔ ym ∈ dom map.
Proof.
  unfold sorted_keys. split.
  - apply (SqlFacts.StronglySorted_weaken
             (λ a b, String.leb a b = true ∧ id a ≠ id b)).
    { intros a b [??]. by apply leb_ne_ltb. }
    apply SqlFacts.StronglySorted_strict.
    + apply SqlFacts.order_by_sorted;
        [apply String.leb_total|apply DateText.string_leb_trans].
    + rewrite list_fmap_id, SqlFacts.order_by_perm. apply NoDup_elements.
  - intros ym. by rewrite SqlFacts.elem_of_order_by, elem_of_elements.
Qed.

(** What the loop leaves in [maxDate]: nothing when no row has a valid date,
    else a valid date of a row that no valid date of a row is later than. *)
Lemma loop_maxDate (rows : list income_item) :
  match (loop rows).2 with
  | None => Forall (λ r, new_Date (date r) = None) rows
  | Some dmax =>
      (∃ r, r ∈ rows ∧ new_Date (date r) = Some dmax)
      ∧ ∀ r d, r ∈ rows → new_Date (date r) = Some d →
               getTime d ≤ getTime dmax
  end.
Proof.
  induction rows as [|x rows IH] using rev_ind; [constructor|].
  rewrite foldl_app. cbn [foldl]. unfold aggregate_row at 1.
  destruct (new_Date (date x)) as [d|] eqn:Hd.
  - cbn [snd]. destruct (loop rows).2 as [dmax|].
    + destruct IH as [(r & Hr & Hrd) Hmax].
      destruct (Z.ltb_spec (getTime dmax) (getTime d)) as [Hlt|Hge].
      * split; [exists x; split; [apply elem_of_app; right; left|done]|].
        intros r' d' [Hr'|Hr']%elem_of_app Hd'.
        -- specialize (Hmax r' d' Hr' Hd'). lia.
        -- apply list_elem_of_singleton in Hr' as ->.
           rewrite Hd in Hd'. injection Hd' as <-. lia.
      * split; [exists r; split; [apply elem_of_app; by left|done]|].
        intros r' d' [Hr'|Hr']%elem_of_app Hd'; [by eapply Hmax|].
        apply list_elem_of_singleton in Hr' as ->.
        rewrite Hd in Hd'. by injection Hd' as <-.
    + split; [exists x; split; [apply elem_of_app; right; left|done]|].
      intros r' d' [Hr'|Hr']%elem_of_app Hd'.
      * eapply Forall_forall in IH; [|done]. congruence.
      * apply list_elem_of_singleton in Hr' as ->.
        rewrite Hd in Hd'. injection Hd' as <-. lia.
  - destruct (loop rows).2 as [dmax|].
    + destruct IH as [(r & Hr & Hrd) Hmax].
      split; [exists r; split; [apply elem_of_app; by left|done]|].
      intros r' d' [Hr'|Hr']%elem_of_app Hd'; [by eapply Hmax|].
      apply list_elem_of_singleton in Hr' as ->. congruence.
    + apply Forall_app. split; [done|]. by constructor.
Qed.

Lemma aggregateByMonth_unfold (incomeRange : range) (rows : list income_item) :
  aggregateByMonth new_Date from_cutoff incomeRange rows
  = (let labels :=
       match incomeRange, (loop rows).2 with
       | months n, Some maxDate =>
           filter (λ ym, from_cutoff n maxDate ym) (sorted_keys (loop rows).1)
       | _, _ => sorted_keys (loop rows).1
       end in
     (labels, (λ ym, default 0 ((loop rows).1 !! ym)) <$> labels)).
Proof. unfold aggregateByMonth. by destruct (loop rows). Qed.

End aggregate.
End AggregateFacts.

Section aggregate_properties.
Import IncomeJs.
Variable new_Date : option string → option Date.
Variable from_cutoff : Z → Date → string → bool.



(** X17. With a range of [n] months the labels are those of the range ['ALL']
    that are from the cutoff on, the cutoff being taken from a valid date of a
    row that none is later than, and the value of a label that is kept is the
    one of the range ['ALL']; rows without any valid date give an empty chart. *)
Theorem aggregateByMonth_months_restricts (n : Z) (rows : list income_item) :
  let all := aggregateByMonth new_Date from_cutoff ALL rows in
  let ranged := aggregateByMonth new_Date from_cutoff (months n) rows in
  (Forall (λ r, new_Date (date r) = None) rows ∧ ranged = ([], []))
  ∨ ∃ dmax,
      (∃ r, r ∈ rows ∧ new_Date (date r) = Some dmax)
      ∧ (∀ r d, r ∈ rows → new_Date (date r) = Some d →
                getTime d ≤ getTime dmax)
      ∧ ranged.1 = filter (λ ym, from_cutoff n dmax ym) all.1
      ∧ Forall2 (λ ym total, (ym, total) ∈ zip all.1 all.2) ranged.1 ranged.2.
Proof.
  intros all ranged. subst all ranged.
  rewrite !AggregateFacts.aggregateByMonth_unfold. cbn [fst snd].
  pose proof (AggregateFacts.loop_maxDate new_Date rows) as Hmax.
  set (st := foldl (aggregate_row new_Date) (∅, None) rows) in *.
  destruct st.2 as [dmax|].
  - right. exists dmax. destruct Hmax as [Hex Hle]. split_and!; [done..|].
    apply Forall2_fmap_r, Forall_Forall2_diag, Forall_forall.
    intros ym [_ Hym]%list_elem_of_filter.
    apply list_elem_of_lookup in Hym as [i Hi].
    apply (list_elem_of_lookup_2 _ i). rewrite lookup_zip_with, Hi. simpl.
    by rewrite list_lookup_fmap, Hi.
  - left. split; [done|].
    assert (sorted_keys st.1 = []) as ->; [|done].
    destruct (sorted_keys st.1) as [|ym ?] eqn:Hkeys; [done|].
    assert (ym ∈ sorted_keys st.1) as Hym by (rewrite Hkeys; left).
    apply AggregateFacts.sorted_keys_spec,
      (AggregateFacts.loop_dom new_Date) in Hym as (r & Hr & Hlab).
    eapply Forall_forall in Hmax; [|done]. by rewrite Hmax in Hlab.
Qed.

End aggregate_properties.

(** ** The chart of budget against spending on the dashboard *)

Module ChartFacts.
Import DashboardJs.


Lemma find_total_absent (rows : list category_total) (cat : option string) :
  cat ∉ ct_category <$> rows → find_total rows cat = 0.
Proof.
  unfold find_total. induction rows as [|x rows IH]; [done|].
  rewrite fmap_cons, not_elem_of_cons. intros [Hx Hrows]. cbn [find].
  rewrite bool_decide_eq_false_2 by done. by apply IH.
Qed.


End ChartFacts.

(** X18. The labels of the chart are the categories of the budgets and of the
    expenses, each once; the two series are as long as the labels; a category
    that only one of the two lists has gets a bar of height zero in the other
    series. *)
Theorem budget_vs_actual_union (budgets expenses : list category_total) :
  let chart := DashboardJs.setupBudgetVsActualChart budgets expenses in
  let categories := chart.1.1 in
  let budgetVals := chart.1.2 in
  let actualVals := chart.2 in
  NoDup categories
  ∧ (∀ c, c ∈ categories
          ↔ c ∈ ct_category <$> budgets ∨ c ∈ ct_category <$> expenses)
  ∧ length budgetVals = length categories
  ∧ length actualVals = length categories
  ∧ (∀ i c, categories !! i = Some c →
       (c ∉ ct_category <$> budgets → budgetVals !! i = Some 0)
       ∧ (c ∉ ct_category <$> expenses → actualVals !! i = Some 0)).
Proof.
  cbn [DashboardJs.setupBudgetVsActualChart fst snd]. split_and!.
  - apply SqlFacts.NoDup_distinct.
  - intros c. by rewrite SqlFacts.elem_of_distinct, elem_of_app.
  - apply length_fmap.
  - apply length_fmap.
  - intros i c Hi. rewrite !list_lookup_fmap, Hi. cbn [fmap option_fmap option_map].
    split; intros Hc; f_equal; by apply ChartFacts.find_total_absent.
Qed.


(** ** [unformatCurrency] and the characters it drops *)

Module StripFacts.

Lemma strip_app (a b : string) : strip (a +:+ b) = strip a +:+ strip b.
Proof.
  induction a as [|c a IH]; [done|].
  change (String c a +:+ b) with (String c (a +:+ b)). cbn [strip].
  rewrite IH. by destruct (amount_char c).
Qed.

Lemma strip_idemp (t : string) : strip (strip t) = strip t.
Proof.
  induction t as [|c t IH]; [done|]. cbn [strip].
  destruct (amount_char c) eqn:Hc; [|done]. cbn [strip]. by rewrite Hc, IH.
Qed.

End StripFacts.

(** X20. A character that is no digit, point or minus sign changes nothing,
    wherever it stands in the text: the three helpers give the same number
    with it and without it, and the same number for a text and for what is
    left of it once such characters are dropped. *)
Theorem unformatCurrency_ignores_decoration (a b : string) (c : ascii) :
  amount_char c = false →
  Forall
    (λ unformatCurrency : js_value → js_number,
       unformatCurrency (js_string (a +:+ String c b))
       = unformatCurrency (js_string (a +:+ b))
       ∧ unformatCurrency (js_string (strip (a +:+ String c b)))
         = unformatCurrency (js_string (a +:+ b)))
    [IncomeJs.unformatCurrency; ExpenseJs.unformatCurrency;
     BudgetJs.unformatCurrency].
Proof.
  intros Hc.
  assert (strip (a +:+ String c b) = strip (a +:+ b)) as Hstrip.
  { rewrite !StripFacts.strip_app. cbn [strip]. by rewrite Hc. }
  repeat constructor;
    unfold IncomeJs.unformatCurrency, ExpenseJs.unformatCurrency,
      BudgetJs.unformatCurrency; cbn [or_empty];
    by rewrite ?StripFacts.strip_idemp, Hstrip.
Qed.

(** The theorem at the texts ["1,250"] and ["$12.50"]. *)
Lemma unformatCurrency_ignores_decoration_witness :
  amount_char "," = false
  ∧ IncomeJs.unformatCurrency (js_string "1,250")
    = IncomeJs.unformatCurrency (js_string "1250")
  ∧ BudgetJs.unformatCurrency (js_string "$12.50")
    = BudgetJs.unformatCurrency (js_string "12.50").
Proof.
  assert (amount_char "," = false) as Hcomma by reflexivity.
  assert (amount_char "$" = false) as Hdollar by reflexivity.
  split; [exact Hcomma|]. split.
  - exact (proj1 (Forall_inv
             (unformatCurrency_ignores_decoration "1" "250" "," Hcomma))).
  - pose proof (unformatCurrency_ignores_decoration "" "12.50" "$" Hdollar)
      as H.
    exact (proj1 (Forall_inv (Forall_inv_tail (Forall_inv_tail H)))).
Defined.

(** ** The lists of incomes and of expenses *)

Module ListFacts.

Lemma date_leb_total (a b : Sql.date) :
  date_leb a b = true ∨ date_leb b a = true.
Proof.
  unfold date_leb.
  destruct (N.eqb_spec (Sql.year a) (Sql.year b)),
    (N.eqb_spec (Sql.year b) (Sql.year a)),
    (N.eqb_spec (Sql.month a) (Sql.month b)),
    (N.eqb_spec (Sql.month b) (Sql.month a));
    rewrite ?N.leb_le, ?N.ltb_lt; lia.
Qed.

Lemma date_leb_trans (a b c : Sql.date) :
  date_leb a b = true → date_leb b c = true → date_leb a c = true.
Proof.
  unfold date_leb.
  destruct (N.eqb_spec (Sql.year a) (Sql.year b)),
    (N.eqb_spec (Sql.year b) (Sql.year c)),
    (N.eqb_spec (Sql.year a) (Sql.year c)),
    (N.eqb_spec (Sql.month a) (Sql.month b)),
    (N.eqb_spec (Sql.month b) (Sql.month c)),
    (N.eqb_spec (Sql.month a) (Sql.month c));
    rewrite ?N.leb_le, ?N.ltb_lt; lia.
Qed.

Lemma desc_total (a b : option Sql.date) :
  Sql.desc date_leb a b = true ∨ Sql.desc date_leb b a = true.
Proof.
  unfold Sql.desc.
  destruct (SqlFacts.asc_total date_leb date_leb_total a b); auto.
Qed.

Lemma desc_trans (a b c : option Sql.date) :
  Sql.desc date_leb a b = true → Sql.desc date_leb b c = true →
  Sql.desc date_leb a c = true.
Proof.
  unfold Sql.desc. intros Hab Hbc.
  exact (SqlFacts.asc_trans date_leb date_leb_trans c b a Hbc Hab).
Qed.

End ListFacts.

Section transaction_lists.
Variable email : string.
Variable db : database.

(** X21. The list of incomes of a user holds the income rows of that user,
    each once and no other, the latest date first and the rows without date
    last; their amounts add up to [totals.income] of the report. Without a
    connection the answer is 500. *)
Theorem income_list_matches_report :
  ∃ items r,
    api_income_get email (online db)
    = (Returned (json_rows 200 items), online db)
    ∧ api_reports email (online db) = (Returned (json_report 200 r), online db)
    ∧ items ≡ₚ income_of email db
    ∧ StronglySorted
        (λ a b, match inc_date a, inc_date b with
                | Some x, Some y => date_leb y x = true
                | None, Some _ => False
                | _, None => True
                end) items
    ∧ Zsum (Number ∘ inc_amount <$> items) = totals_income (totals r)
    ∧ api_income_get email {| tables := db; reachable := false |}
      = (Returned (json_rows_failure 500 "Error retrieving income."),
         {| tables := db; reachable := false |}).
Proof.
  exists (select_income email db). eexists.
  split; [reflexivity|]. split; [apply api_reports_online|].
  split; [apply SqlFacts.order_by_perm|]. split; [|split; [|reflexivity]].
  - eapply SqlFacts.StronglySorted_weaken;
      [|apply (SqlFacts.order_by_sorted
                 (λ a b, Sql.desc date_leb (inc_date a) (inc_date b)))].
    + intros a b. unfold Sql.desc, Sql.asc.
      by destruct (inc_date a), (inc_date b).
    + intros a b. apply ListFacts.desc_total.
    + intros a b c. apply ListFacts.desc_trans.
  - cbn [totals totals_income]. rewrite SqlFacts.Number_sum.
    rewrite list_fmap_compose.
    apply SqlFacts.Zsum_perm, fmap_Permutation, fmap_Permutation,
      SqlFacts.order_by_perm.
Qed.

(** X22. The list of expenses of a user holds the expense rows of that user,
    each once and no other, the latest date first and the rows without date
    last; their amounts add up to [totals.expenses] of the report. Without a
    connection the answer is 500. *)
Theorem expense_list_matches_report :
  ∃ items r,
    api_expense_get email (online db)
    = (Returned (json_rows 200 items), online db)
    ∧ api_reports email (online db) = (Returned (json_report 200 r), online db)
    ∧ items ≡ₚ expense_of email db
    ∧ StronglySorted
        (λ a b, match exp_date a, exp_date b with
                | Some x, Some y => date_leb y x = true
                | None, Some _ => False
                | _, None => True
                end) items
    ∧ Zsum (Number ∘ exp_amount <$> items) = totals_expenses (totals r)
    ∧ api_expense_get email {| tables := db; reachable := false |}
      = (Returned (json_rows_failure 500 "Error retrieving expenses."),
         {| tables := db; reachable := false |}).
Proof.
  exists (select_expense email db). eexists.
  split; [reflexivity|]. split; [apply api_reports_online|].
  split; [apply SqlFacts.order_by_perm|]. split; [|split; [|reflexivity]].
  - eapply SqlFacts.StronglySorted_weaken;
      [|apply (SqlFacts.order_by_sorted
                 (λ a b, Sql.desc date_leb (exp_date a) (exp_date b)))].
    + intros a b. unfold Sql.desc, Sql.asc.
      by destruct (exp_date a), (exp_date b).
    + intros a b. apply ListFacts.desc_total.
    + intros a b c. apply ListFacts.desc_trans.
  - cbn [totals totals_expenses]. rewrite SqlFacts.Number_sum.
    rewrite list_fmap_compose.
    apply SqlFacts.Zsum_perm, fmap_Permutation, fmap_Permutation,
      SqlFacts.order_by_perm.
Qed.

End transaction_lists.
